(** * giftp: a git-backed FTP driver

    A shallow embedding of [driver.go] (package [giftp]): the [GitDriver]
    methods that map the FTP file operations onto a go-git work tree, and
    the properties of its design document that can be stated over it.

    Layout of the development:
    - [strings], [filepath], [os]: the parts of Go's standard library the
      driver calls, as executable functions;
    - [result], [M]: Go's [(value, error)] returns as a state-and-error
      monad over the state of the repository on disk;
    - [Backend]: the interface of the storage collaborator (go-git's
      repository and work tree, go-billy's filesystem), with [BackendLaws]
      stating which of its operations touch the commit log;
    - [Driver]: the methods of [GitDriver], one definition per Go function,
      over any [Backend];
    - [Mem]: an in-memory reference backend, used to run the driver;
    - the theorems. *)

From Stdlib Require Import ZArith String Ascii List Lia.
From stdpp Require Import base option list gmap strings.

Local Open Scope string_scope.
Local Open Scope Z_scope.
Local Open Scope list_scope.

(** ** Errors and results *)

(** A Go [error] value: its [Error()] text and whether [os.IsNotExist]
    accepts it. *)
Record error := { Error : string; NotExist : bool }.

Module errors.
(** [errors.New(text)] *)
Definition New (text : string) : error := {| Error := text; NotExist := false |}.
End errors.

(** A Go return [(a, err)]: [Ok a] when [err == nil], [Err err] otherwise. *)
Inductive result (A : Type) : Type :=
| Ok (a : A)
| Err (e : error).
Arguments Ok {A} a.
Arguments Err {A} e.

(** ** The state-and-error monad

    A Go function that acts on a state [S] and returns [(a, err)].  A
    failing step keeps the state it has reached: nothing is undone. *)
Definition M (S A : Type) : Type := S -> S * result A.

Definition ret {S A} (a : A) : M S A := fun s => (s, Ok a).

Definition fail {S A} (e : error) : M S A := fun s => (s, Err e).

Definition bind {S A B} (m : M S A) (k : A -> M S B) : M S B :=
  fun s => match m s with
           | (s', Ok a) => k a s'
           | (s', Err e) => (s', Err e)
           end.

(** A step that only reads the state. *)
Definition query {S A} (f : S -> result A) : M S A := fun s => (s, f s).

(** A call whose error is inspected instead of returned at once. *)
Definition attempt {S A} (m : M S A) : M S (result A) :=
  fun s => let '(s', r) := m s in (s', Ok r).

(** Running a step on the first or on the second half of a paired state. *)
Definition on_fst {S T A} (m : M S A) : M (S * T) A :=
  fun '(s, t) => let '(s', r) := m s in ((s', t), r).

Definition on_snd {S T A} (m : M T A) : M (S * T) A :=
  fun '(s, t) => let '(t', r) := m t in ((s, t'), r).

Declare Scope go_scope.
Delimit Scope go_scope with go.
Notation "'let!' x ':=' m 'in' k" := (bind m (fun x => k))
  (at level 10, x pattern, m at level 100, k at level 200) : go_scope.
Notation "'do!' m 'in' k" := (bind m (fun _ => k))
  (at level 10, m at level 100, k at level 200) : go_scope.

(** ** package strings *)
Module strings.

(** The scan of [strings.Split] for a non-empty separator: [cur] is the
    piece being read, [skip] the bytes of a matched separator still to
    pass over. *)
Fixpoint split_from (sep : string) (skip : nat) (cur s : string) : list string :=
  match s with
  | EmptyString => [cur]
  | String c s' =>
      match skip with
      | S k => split_from sep k cur s'
      | O =>
          if String.prefix sep s
          then cur :: split_from sep (Nat.pred (String.length sep)) EmptyString s'
          else split_from sep O (String.append cur (String c EmptyString)) s'
      end
  end.

(** [strings.Split(s, sep)]; an empty [sep] splits after each byte. *)
Definition Split (s sep : string) : list string :=
  match sep with
  | EmptyString => (fun c => String c EmptyString) <$> list_ascii_of_string s
  | _ => split_from sep O EmptyString s
  end.

(** [strings.Join(elems, sep)] *)
Definition Join (elems : list string) (sep : string) : string :=
  String.concat sep elems.

End strings.

(** ** package path/filepath (Unix) *)
Module filepath.

Definition Separator : ascii := "/"%char.

Definition rooted (path : string) : bool :=
  match path with
  | String c _ => Ascii.eqb c Separator
  | EmptyString => false
  end.

(** The elements [Clean] keeps, most recent first: empty and [.]
    elements vanish, [..] removes the element before it, or is dropped
    at the root, or is kept at the start of a relative path. *)
Fixpoint clean_elems (isroot : bool) (kept : list string) (elems : list string)
  : list string :=
  match elems with
  | [] => kept
  | e :: rest =>
      if String.eqb e "" then clean_elems isroot kept rest
      else if String.eqb e "." then clean_elems isroot kept rest
      else if String.eqb e ".." then
        match kept with
        | top :: below =>
            if String.eqb top ".." then clean_elems isroot (e :: kept) rest
            else clean_elems isroot below rest
        | [] =>
            if isroot then clean_elems isroot [] rest
            else clean_elems isroot [e] rest
        end
      else clean_elems isroot (e :: kept) rest
  end.

(** [filepath.Clean(path)]: the shortest equivalent path. *)
Definition Clean (path : string) : string :=
  let kept := rev (clean_elems (rooted path) [] (strings.Split path "/")) in
  if rooted path then String Separator (strings.Join kept "/")
  else match kept with
       | [] => "."
       | _ => strings.Join kept "/"
       end.

(** [filepath.Join(elem...)]: leading empty elements are skipped, the
    rest is joined with the separator and cleaned; [""] if all are
    empty. *)
Fixpoint Join (elem : list string) : string :=
  match elem with
  | [] => ""
  | e :: rest =>
      if String.eqb e "" then Join rest
      else Clean (strings.Join elem "/")
  end.

(** [filepath.Rel("/", targpath)], the one base path the driver uses:
    the cleaned target without its leading separator, [.] for the root
    itself, and an error for a target that is not rooted. *)
Definition RelRoot (targpath : string) : result string :=
  let targ := Clean targpath in
  if String.eqb targ "/" then Ok "."
  else if rooted targ then
    match targ with
    | String _ rest => Ok rest
    | EmptyString => Ok ""
    end
  else Err (errors.New ("Rel: can't make " +:+ targpath +:+ " relative to /")).

End filepath.

(** ** package os *)
Module os.

(** [os.FileMode] is a [uint32]. *)
Definition FileMode : Type := Z.

Definition ModeDir : FileMode := Z.shiftl 1 31.
Definition ModePerm : FileMode := 511.   (* 0777 *)

Definition O_RDWR : Z := 2.
Definition O_APPEND : Z := 1024.
Definition SEEK_SET : Z := 0.
Definition SEEK_END : Z := 2.

(** What the driver reads of an [os.FileInfo]. *)
Record FileInfo := {
  Name : string;
  Size : Z;
  Mode : FileMode;
  IsDir : bool
}.

Definition IsNotExist (err : error) : bool := NotExist err.

End os.

Module fmt.
(** [fmt.Sprintln(a, err)] for a string and an error: the operands
    separated by a space, with a newline appended. *)
Definition Sprintln (a : string) (err : error) : string :=
  a +:+ " " +:+ Error err +:+ String (ascii_of_nat 10) EmptyString.
End fmt.

(** ** package io *)

(** An [io.Reader] as the driver sees it through [io.Copy]: the bytes it
    yields, then either [io.EOF] or a read error. *)
Record Reader := { rbytes : list Byte.byte; rerr : option error }.

(** ** package server (goftp): the permission collaborator *)
Module server.
Record Perm := {
  GetMode : string -> result os.FileMode;
  GetOwner : string -> result string;
  GetGroup : string -> result string
}.
End server.


(** ** The storage collaborator

    go-git's [git.PlainOpen], [Repository.Worktree], [Worktree.Add] and
    [Worktree.Commit], and the go-billy filesystem of the work tree, over
    the state [World] of the repository on disk.  Calls that only read are
    functions of the state; calls that write return the state they leave
    behind, also when they fail. *)
Module git.
(** [object.Signature] *)
Record Signature := { SigName : string; SigEmail : string; SigWhen : Z }.
(** [git.CommitOptions], the field the driver sets. *)
Record CommitOptions := { Author : Signature }.
End git.

Class Backend := {
  World : Type;
  Repository : Type;
  Worktree : Type;
  File : Type;
  Hash : Type;
  (** [time.Now()] *)
  time_Now : World -> Z;
  (** the number of commits in the repository's log *)
  CommitCount : World -> nat;
  PlainOpen : string -> World -> result Repository;
  Repository_Worktree : Repository -> World -> result Worktree;
  Filesystem_Stat : Worktree -> string -> World -> result os.FileInfo;
  Filesystem_Lstat : Worktree -> string -> World -> result os.FileInfo;
  Filesystem_ReadDir : Worktree -> string -> World -> result (list os.FileInfo);
  Filesystem_Open : Worktree -> string -> World -> result File;
  (** [OpenFile(name, flag, perm)] without [O_CREATE], as the driver calls it *)
  Filesystem_OpenFile : Worktree -> string -> Z -> os.FileMode -> World -> result File;
  Filesystem_Create : Worktree -> string -> M World File;
  Filesystem_Remove : Worktree -> string -> M World unit;
  Filesystem_Rename : Worktree -> string -> string -> M World unit;
  Filesystem_MkdirAll : Worktree -> string -> os.FileMode -> M World unit;
  (** [f.Seek(offset, whence)]: the handle moved, and its new offset *)
  File_Seek : File -> Z -> Z -> World -> result (File * Z);
  (** [f.Write(p)]: the number of bytes written *)
  File_Write : File -> list Byte.byte -> M World Z;
  Worktree_Add : Worktree -> string -> M World Hash;
  Worktree_Commit : Worktree -> string -> git.CommitOptions -> M World Hash
}.

(** Only [Worktree.Commit] adds to the commit log, one commit when it
    succeeds and none when it fails. *)
Class BackendLaws (B : Backend) : Prop := {
  Create_commits t p w : CommitCount (Filesystem_Create t p w).1 = CommitCount w;
  Remove_commits t p w : CommitCount (Filesystem_Remove t p w).1 = CommitCount w;
  Rename_commits t p q w : CommitCount (Filesystem_Rename t p q w).1 = CommitCount w;
  MkdirAll_commits t p m w : CommitCount (Filesystem_MkdirAll t p m w).1 = CommitCount w;
  Write_commits f bs w : CommitCount (File_Write f bs w).1 = CommitCount w;
  Add_commits t p w : CommitCount (Worktree_Add t p w).1 = CommitCount w;
  Commit_ok t msg o w w' h :
    Worktree_Commit t msg o w = (w', Ok h) -> CommitCount w' = S (CommitCount w);
  Commit_err t msg o w w' e :
    Worktree_Commit t msg o w = (w', Err e) -> CommitCount w' = CommitCount w
}.

(** [io.Copy(dst, src)]: the bytes of the reader are written to the file;
    a reader with nothing to yield causes no write.  The read error, if
    any, is returned after the bytes read before it were written. *)
Definition io_Copy `{Backend} (dst : File) (src : Reader) : M World Z :=
  (let! written :=
     match rbytes src with
     | [] => ret 0
     | bs => File_Write dst bs
     end in
   match rerr src with
   | None => ret written
   | Some e => fail e
   end)%go.

(** ** The driver *)

Record GitDriver := {
  RootPath : string;
  Perm : server.Perm
}.

(** The driver's [FileInfo]: the backend's file info with the mode, owner
    and group it reports in its place. *)
Record FileInfo := {
  info : os.FileInfo;
  mode : os.FileMode;
  owner : string;
  group : string
}.

(** The callback of [ListDir], a closure over a state [C] of its own. *)
Definition Callback (C : Type) : Type := FileInfo -> M C unit.

(** A callback that also records each call it receives and what it
    answered. *)
Definition recording {C} (callback : Callback C)
  : Callback (C * list (FileInfo * result unit)) :=
  fun fi '(c, calls) =>
    let '(c', r) := callback fi c in ((c', (calls ++ [(fi, r)])%list), r).

Module Driver.
Section Driver.
Context `{B : Backend}.
Variable driver : GitDriver.

Definition realPath (path : string) : string :=
  let paths := strings.Split path "/" in
  filepath.Join (RootPath driver :: paths).

Definition ChangeDir (path : string) : M World unit :=
  (let! r := query (PlainOpen (RootPath driver)) in
   let! tree := query (Repository_Worktree r) in
   let! f := query (Filesystem_Stat tree path) in
   if os.IsDir f then ret tt
   else fail (errors.New "Not a directory"))%go.

Definition Stat (path : string) : M World FileInfo :=
  (let! r := query (PlainOpen (RootPath driver)) in
   let! tree := query (Repository_Worktree r) in
   let! f := query (Filesystem_Stat tree path) in
   let! mode := query (fun _ => server.GetMode (Perm driver) path) in
   let mode := if os.IsDir f then Z.lor mode os.ModeDir else mode in
   let! owner := query (fun _ => server.GetOwner (Perm driver) path) in
   let! group := query (fun _ => server.GetGroup (Perm driver) path) in
   ret {| info := f; mode := mode; owner := owner; group := group |})%go.

(** The body of the [for _, file := range files] loop of [ListDir]. *)
Fixpoint ListDir_range {C} (tree : Worktree) (path : string) (paths : list string)
    (callback : Callback C) (files : list os.FileInfo) : M (World * C) unit :=
  match files with
  | [] => ret tt
  | file :: files' =>
      (let rPath := filepath.Join (paths ++ [os.Name file])%list in
       let! info := on_fst (query (Filesystem_Stat tree rPath)) in
       let mode := os.Mode info in
       let mode := if os.IsDir info then Z.lor mode os.ModeDir else mode in
       let! owner := query (fun _ => server.GetOwner (Perm driver) path) in
       let! group := query (fun _ => server.GetGroup (Perm driver) path) in
       do! on_snd (callback {| info := info; mode := mode;
                                owner := owner; group := group |}) in
       ListDir_range tree path paths callback files')%go
  end.

Definition ListDir {C} (path : string) (callback : Callback C) : M (World * C) unit :=
  (let! r := on_fst (query (PlainOpen (RootPath driver))) in
   let! tree := on_fst (query (Repository_Worktree r)) in
   let! files := on_fst (query (Filesystem_ReadDir tree path)) in
   let paths := strings.Split path "/" in
   ListDir_range tree path paths callback files)%go.

Definition add (destPath : string) (r : Repository) : M World unit :=
  (let! tree := query (Repository_Worktree r) in
   let! addPath := query (fun _ => filepath.RelRoot destPath) in
   do! Worktree_Add tree addPath in
   ret tt)%go.

Definition commit (r : Repository) : M World unit :=
  (let! tree := query (Repository_Worktree r) in
   let! now := query (fun w => Ok (time_Now w)) in
   do! Worktree_Commit tree "example go-git commit"
         {| git.Author := {| git.SigName := "John Doe";
                             git.SigEmail := "john@doe.org";
                             git.SigWhen := now |} |} in
   ret tt)%go.

Definition DeleteDir (path : string) : M World unit :=
  (let! r := query (PlainOpen (RootPath driver)) in
   let! tree := query (Repository_Worktree r) in
   let! f := query (Filesystem_Lstat tree path) in
   if negb (os.IsDir f) then fail (errors.New "Not a directory")
   else
     do! Filesystem_Remove tree path in
     do! add path r in
     commit r)%go.

Definition DeleteFile (path : string) : M World unit :=
  (let! r := query (PlainOpen (RootPath driver)) in
   let! tree := query (Repository_Worktree r) in
   let! f := query (Filesystem_Lstat tree path) in
   if os.IsDir f then fail (errors.New "Not a file")
   else
     do! Filesystem_Remove tree path in
     do! add path r in
     commit r)%go.

Definition Rename (fromPath toPath : string) : M World unit :=
  (let! r := query (PlainOpen (RootPath driver)) in
   let! tree := query (Repository_Worktree r) in
   do! Filesystem_Rename tree fromPath toPath in
   do! add fromPath r in
   do! add toPath r in
   commit r)%go.

Definition MakeDir (path : string) : M World unit :=
  (let! r := query (PlainOpen (RootPath driver)) in
   let! tree := query (Repository_Worktree r) in
   do! Filesystem_MkdirAll tree path os.ModePerm in
   do! add path r in
   commit r)%go.

Definition GetFile (path : string) (offset : Z) : M World (Z * File) :=
  (let! r := query (PlainOpen (RootPath driver)) in
   let! tree := query (Repository_Worktree r) in
   let! info := query (Filesystem_Stat tree path) in
   let! f := query (Filesystem_Open tree path) in
   (* the result of [f.Seek] is discarded: a failed seek leaves [f] as it is *)
   let! f := query (fun w => match File_Seek f offset os.SEEK_SET w with
                             | Ok (f', _) => Ok f'
                             | Err _ => Ok f
                             end) in
   ret (os.Size info, f))%go.

Definition PutFile (destPath : string) (data : Reader) (appendData : bool)
  : M World Z :=
  (let! r := query (PlainOpen (RootPath driver)) in
   let! tree := query (Repository_Worktree r) in
   let! st := attempt (query (Filesystem_Lstat tree destPath)) in
   let! isExist :=
     match st with
     | Ok f =>
         if os.IsDir f then fail (errors.New "A dir has the same name")
         else ret true
     | Err err =>
         if os.IsNotExist err then ret false
         else fail (errors.New (fmt.Sprintln "Put File error:" err))
     end in
   let appendData := if appendData && negb isExist then false else appendData in
   if negb appendData then
     do! (if isExist : bool then Filesystem_Remove tree destPath else ret tt) in
     let! f := Filesystem_Create tree destPath in
     let! bytes := io_Copy f data in
     do! add destPath r in
     do! commit r in
     ret bytes
   else
     let! of' := query (Filesystem_OpenFile tree destPath
                         (Z.lor os.O_APPEND os.O_RDWR) 432 (* 0660 *)) in
     (* [of.Seek] moves the handle the copy then writes through *)
     let! of' := query (fun w => match File_Seek of' 0 os.SEEK_END w with
                                 | Ok (moved, _) => Ok moved
                                 | Err e => Err e
                                 end) in
     let! bytes := io_Copy of' data in
     do! add destPath r in
     do! commit r in
     ret bytes)%go.

End Driver.
End Driver.

(** ** An in-memory reference backend *)

(** Modelled from the spec: the storage collaborator (go-git's repository,
    work tree, staging and commit, and go-billy's filesystem), which the
    driver imports and which is not part of the repository.

    A work tree is a finite map from cleaned paths (lists of path
    elements, [[]] for the root directory) to nodes; the staging area
    records the state of the paths added to it; the commit log holds
    snapshots of the staging area.  This follows the design document's
    description of the collaborator: POSIX-like file operations on the
    tree, [stage] registering the current state of one path, [commit]
    recording what is staged.  As in go-billy's OS filesystem, [Create]
    and [Rename] first make the missing parent directories of their
    target. *)
Module Mem.

Inductive node :=
| RegularFile (content : list Byte.byte)
| Directory.

Record commit_record := {
  message : string;
  author : git.Signature;
  snapshot : gmap (list string) node
}.

Record world := {
  root : string;                      (* where the repository lives *)
  tree : gmap (list string) node;     (* the work tree *)
  index : gmap (list string) node;    (* the staging area *)
  log : list commit_record;           (* the commits, newest first *)
  clock : Z
}.

(** An open file: the path it was opened at, its offset, and whether it
    was opened with [O_APPEND]. *)
Record handle := { hkey : list string; hoff : Z; happend : bool }.

Definition set_tree (w : world) (t : gmap (list string) node) : world :=
  {| root := root w; tree := t; index := index w; log := log w; clock := clock w |}.

Definition not_exist : error :=
  {| Error := "file does not exist"; NotExist := true |}.

(** The path elements a name resolves to inside the work tree; a name
    that climbs out of it is refused. *)
Definition resolve (path : string) : result (list string) :=
  let elems :=
    rev (filepath.clean_elems (filepath.rooted path) [] (strings.Split path "/")) in
  match elems with
  | e :: _ => if String.eqb e ".." then Err (errors.New "chroot boundary crossed")
              else Ok elems
  | [] => Ok elems
  end.

Definition lookup_node (t : gmap (list string) node) (k : list string) : option node :=
  match k with
  | [] => Some Directory
  | _ => t !! k
  end.

Definition file_info (k : list string) (n : node) : os.FileInfo :=
  match n with
  | RegularFile c =>
      {| os.Name := List.last k "/"; os.Size := Z.of_nat (length c);
         os.Mode := 420 (* 0644 *); os.IsDir := false |}
  | Directory =>
      {| os.Name := List.last k "/"; os.Size := 0;
         os.Mode := Z.lor os.ModeDir 493 (* 0755 *); os.IsDir := true |}
  end.

Definition Stat (path : string) (w : world) : result os.FileInfo :=
  match resolve path with
  | Err e => Err e
  | Ok k =>
      match lookup_node (tree w) k with
      | Some n => Ok (file_info k n)
      | None => Err not_exist
      end
  end.

(** [k'] names an immediate child of the directory [k]. *)
Definition child_of (k k' : list string) : bool :=
  match rev k' with
  | _ :: parent => bool_decide (rev parent = k)
  | [] => false
  end.

(** [k'] lies strictly below [k]. *)
Definition below (k k' : list string) : bool :=
  bool_decide (k ≠ k') && bool_decide (take (length k) k' = k).

Definition ReadDir (path : string) (w : world) : result (list os.FileInfo) :=
  match resolve path with
  | Err e => Err e
  | Ok k =>
      match lookup_node (tree w) k with
      | Some Directory =>
          Ok (omap (fun '(k', n) => if child_of k k' then Some (file_info k' n) else None)
                   (map_to_list (tree w)))
      | Some (RegularFile _) => Err (errors.New "not a directory")
      | None => Err not_exist
      end
  end.

Definition Open (path : string) (w : world) : result handle :=
  match resolve path with
  | Err e => Err e
  | Ok k =>
      match lookup_node (tree w) k with
      | Some _ => Ok {| hkey := k; hoff := 0; happend := false |}
      | None => Err not_exist
      end
  end.

(** [OpenFile] without [O_CREATE], as the driver calls it. *)
Definition OpenFile (path : string) (flag : Z) (perm : os.FileMode) (w : world)
  : result handle :=
  match resolve path with
  | Err e => Err e
  | Ok k =>
      match lookup_node (tree w) k with
      | Some (RegularFile _) =>
          Ok {| hkey := k; hoff := 0;
                happend := negb (Z.land flag os.O_APPEND =? 0) |}
      | Some Directory => Err (errors.New "is a directory")
      | None => Err not_exist
      end
  end.

(** Make the directories [pre ++ [e1]], [pre ++ [e1; e2]], ... *)
Fixpoint mkdirs (t : gmap (list string) node) (pre rest : list string)
  : result (gmap (list string) node) :=
  match rest with
  | [] => Ok t
  | e :: rest' =>
      let pre' := (pre ++ [e])%list in
      match t !! pre' with
      | Some (RegularFile _) => Err (errors.New "not a directory")
      | _ => mkdirs (<[pre' := Directory]> t) pre' rest'
      end
  end.

Definition MkdirAll (path : string) (perm : os.FileMode) : M world unit :=
  fun w =>
    match resolve path with
    | Err e => (w, Err e)
    | Ok k =>
        match mkdirs (tree w) [] k with
        | Ok t => (set_tree w t, Ok tt)
        | Err e => (w, Err e)
        end
    end.

Definition Create (path : string) : M world handle :=
  fun w =>
    match resolve path with
    | Err e => (w, Err e)
    | Ok k =>
        match mkdirs (tree w) [] (removelast k) with
        | Err e => (w, Err e)
        | Ok t =>
            match lookup_node t k with
            | Some Directory => (set_tree w t, Err (errors.New "is a directory"))
            | _ => (set_tree w (<[k := RegularFile []]> t),
                    Ok {| hkey := k; hoff := 0; happend := false |})
            end
        end
    end.

Definition Remove (path : string) : M world unit :=
  fun w =>
    match resolve path with
    | Err e => (w, Err e)
    | Ok k =>
        match k, tree w !! k with
        | [], _ => (w, Err (errors.New "cannot remove the root"))
        | _, None => (w, Err not_exist)
        | _, Some (RegularFile _) => (set_tree w (delete k (tree w)), Ok tt)
        | _, Some Directory =>
            if existsb (fun kn => below k kn.1) (map_to_list (tree w))
            then (w, Err (errors.New "directory not empty"))
            else (set_tree w (delete k (tree w)), Ok tt)
        end
    end.

(** The entries at and below [from] moved to [to]. *)
Definition move (from to : list string) (t : gmap (list string) node)
  : gmap (list string) node :=
  list_to_map
    ((fun kn : list string * node =>
        if bool_decide (take (length from) kn.1 = from)
        then ((to ++ drop (length from) kn.1)%list, kn.2)
        else kn) <$> map_to_list t).

Definition Rename (from to : string) : M world unit :=
  fun w =>
    match resolve from, resolve to with
    | Err e, _ | _, Err e => (w, Err e)
    | Ok kf, Ok kt =>
        match mkdirs (tree w) [] (removelast kt) with
        | Err e => (w, Err e)
        | Ok t =>
            let w1 := set_tree w t in
            match kf, t !! kf with
            | [], _ => (w1, Err (errors.New "cannot rename the root"))
            | _, None => (w1, Err not_exist)
            | _, Some (RegularFile c) =>
                match lookup_node t kt with
                | Some Directory => (w1, Err (errors.New "is a directory"))
                | _ => (set_tree w (<[kt := RegularFile c]> (delete kf t)), Ok tt)
                end
            | _, Some Directory =>
                match lookup_node t kt with
                | Some _ => (w1, Err (errors.New "file exists"))
                | None =>
                    if bool_decide (take (length kf) kt = kf)
                    then (w1, Err (errors.New "invalid argument"))
                    else (set_tree w (move kf kt t), Ok tt)
                end
            end
        end
    end.

Definition size_at (w : world) (k : list string) : result Z :=
  match lookup_node (tree w) k with
  | Some (RegularFile c) => Ok (Z.of_nat (length c))
  | Some Directory => Ok 0
  | None => Err (errors.New "file already closed")
  end.

Definition Seek (f : handle) (offset whence : Z) (w : world) : result (handle * Z) :=
  match (if whence =? os.SEEK_SET then Ok 0
         else if whence =? 1 then Ok (hoff f)
         else if whence =? os.SEEK_END then size_at w (hkey f)
         else Err (errors.New "invalid argument")) with
  | Err e => Err e
  | Ok base =>
      if base + offset <? 0 then Err (errors.New "negative position")
      else Ok ({| hkey := hkey f; hoff := base + offset; happend := happend f |},
               base + offset)
  end.

(** [bs] written into [c] at offset [off], the gap filled with zeros. *)
Definition write_at (c : list Byte.byte) (off : nat) (bs : list Byte.byte)
  : list Byte.byte :=
  (take off c ++ replicate (off - length c) Byte.x00 ++ bs
     ++ drop (off + length bs) c)%list.

Definition Write (f : handle) (bs : list Byte.byte) : M world Z :=
  fun w =>
    match lookup_node (tree w) (hkey f) with
    | Some (RegularFile c) =>
        let c' := if happend f then (c ++ bs)%list
                  else write_at c (Z.to_nat (hoff f)) bs in
        (set_tree w (<[hkey f := RegularFile c']> (tree w)), Ok (Z.of_nat (length bs)))
    | _ => (w, Err (errors.New "bad file descriptor"))
    end.

(** What is left to read from an open file. *)
Definition ReadAll (f : handle) (w : world) : result (list Byte.byte) :=
  match lookup_node (tree w) (hkey f) with
  | Some (RegularFile c) => Ok (drop (Z.to_nat (hoff f)) c)
  | Some Directory => Err (errors.New "is a directory")
  | None => Err (errors.New "file already closed")
  end.

(** Staging: the current state of the path, present or absent, is
    registered for the next commit. *)
Definition Add (path : string) : M world unit :=
  fun w =>
    match resolve path with
    | Err e => (w, Err e)
    | Ok k =>
        ({| root := root w; tree := tree w;
            index := match lookup_node (tree w) k with
                     | Some n => <[k := n]> (index w)
                     | None => delete k (index w)
                     end;
            log := log w; clock := clock w |}, Ok tt)
    end.

Definition Commit (msg : string) (opts : git.CommitOptions) : M world unit :=
  fun w =>
    ({| root := root w; tree := tree w; index := index w;
        log := {| message := msg; author := git.Author opts;
                  snapshot := index w |} :: log w;
        clock := clock w |}, Ok tt).

Definition PlainOpen (path : string) (w : world) : result unit :=
  if String.eqb path (root w) then Ok tt
  else Err (errors.New "repository does not exist").

(** An empty repository at [/srv/repo]. *)
Definition empty : world :=
  {| root := "/srv/repo"; tree := ∅; index := ∅; log := []; clock := 0 |}.

(** The permission collaborator of [cli/main.go]:
    [server.NewSimplePerm("user", "group")]. *)
Definition SimplePerm : server.Perm :=
  {| server.GetMode := fun _ => Ok os.ModePerm;
     server.GetOwner := fun _ => Ok "user";
     server.GetGroup := fun _ => Ok "group" |}.

Definition driver : GitDriver := {| RootPath := "/srv/repo"; Perm := SimplePerm |}.

Definition bytes (s : string) : list Byte.byte := list_byte_of_string s.

Definition reader (s : string) : Reader := {| rbytes := bytes s; rerr := None |}.

End Mem.

#[export] Instance MemBackend : Backend := {|
World := Mem.world;
Repository := unit;
Worktree := unit;
File := Mem.handle;
Hash := unit;
time_Now := Mem.clock;
CommitCount := fun w => length (Mem.log w);
PlainOpen := Mem.PlainOpen;
Repository_Worktree := fun _ _ => Ok tt;
Filesystem_Stat := fun _ => Mem.Stat;
Filesystem_Lstat := fun _ => Mem.Stat;
Filesystem_ReadDir := fun _ => Mem.ReadDir;
Filesystem_Open := fun _ => Mem.Open;
Filesystem_OpenFile := fun _ => Mem.OpenFile;
Filesystem_Create := fun _ => Mem.Create;
Filesystem_Remove := fun _ => Mem.Remove;
Filesystem_Rename := fun _ => Mem.Rename;
Filesystem_MkdirAll := fun _ => Mem.MkdirAll;
File_Seek := Mem.Seek;
File_Write := Mem.Write;
Worktree_Add := fun _ => Mem.Add;
Worktree_Commit := fun _ => Mem.Commit
|}.

(** ** Mutating operations as data *)

(** The five mutating operations of the driver, with their arguments. *)
Inductive mutation :=
| OpMakeDir (path : string)
| OpDeleteDir (path : string)
| OpDeleteFile (path : string)
| OpRename (fromPath toPath : string)
| OpPutFile (destPath : string) (data : Reader) (appendData : bool).

(** A step with its value dropped: only success or the error is kept. *)
Definition forget {S A} (m : M S A) : M S unit := bind m (fun _ => ret tt).

(** A call of a mutating operation. *)
Definition call `{Backend} (d : GitDriver) (op : mutation) : M World unit :=
  match op with
  | OpMakeDir path => Driver.MakeDir d path
  | OpDeleteDir path => Driver.DeleteDir d path
  | OpDeleteFile path => Driver.DeleteFile d path
  | OpRename fromPath toPath => Driver.Rename d fromPath toPath
  | OpPutFile destPath data appendData => forget (Driver.PutFile d destPath data appendData)
  end.

(** The paths a mutating operation stages, in the order it stages them. *)
Definition staged_paths (op : mutation) : list string :=
  match op with
  | OpMakeDir path | OpDeleteDir path | OpDeleteFile path => [path]
  | OpRename fromPath toPath => [fromPath; toPath]
  | OpPutFile destPath _ _ => [destPath]
  end.

(** The error, if any, with which a call is turned down before the
    backend is asked to change anything: the repository or its work tree
    cannot be opened, or the entry is not of the kind the operation
    works on. *)
Definition refused `{Backend} (d : GitDriver) (op : mutation) (w : World)
  : option error :=
  match PlainOpen (RootPath d) w with
  | Err e => Some e
  | Ok r =>
      match Repository_Worktree r w with
      | Err e => Some e
      | Ok tree =>
          match op with
          | OpMakeDir _ | OpRename _ _ => None
          | OpDeleteDir path =>
              match Filesystem_Lstat tree path w with
              | Err e => Some e
              | Ok f => if os.IsDir f then None
                        else Some (errors.New "Not a directory")
              end
          | OpDeleteFile path =>
              match Filesystem_Lstat tree path w with
              | Err e => Some e
              | Ok f => if os.IsDir f then Some (errors.New "Not a file")
                        else None
              end
          | OpPutFile destPath _ _ =>
              match Filesystem_Lstat tree destPath w with
              | Ok f => if os.IsDir f then Some (errors.New "A dir has the same name")
                        else None
              | Err e => if os.IsNotExist e then None
                         else Some (errors.New (fmt.Sprintln "Put File error:" e))
              end
          end
      end
  end.

(** A step that leaves the commit log as it is, whatever it returns. *)
Definition keeps_log `{Backend} {A} (m : M World A) : Prop :=
  forall w, CommitCount (m w).1 = CommitCount w.

(** A step that adds one commit when it succeeds and none when it fails. *)
Definition one_commit `{Backend} {A} (m : M World A) : Prop :=
  forall w, match m w with
            | (w', Ok _) => CommitCount w' = S (CommitCount w)
            | (w', Err _) => CommitCount w' = CommitCount w
            end.

(** A step whose success is the success of the driver's [commit]. *)
Definition ends_in_commit `{Backend} {A} (m : M World A) : Prop :=
  forall w w' a, m w = (w', Ok a) ->
    exists r w0, Driver.commit r w0 = (w', Ok tt).

(** ** Path elements *)

(** A string without the separator. *)
Fixpoint no_sep (s : string) : Prop :=
  match s with
  | EmptyString => True
  | String c s' => c <> filepath.Separator /\ no_sep s'
  end.

(** A path element that names an entry: not empty, not [.] or [..], and
    without the separator. *)
Definition plain (e : string) : Prop :=
  e <> "" /\ e <> "." /\ e <> ".." /\ no_sep e.

(** ** What [ListDir] tells its callback *)

(** The record [ListDir] hands to the callback for a child whose backend
    stat is [inf]. *)
Definition listed (inf : os.FileInfo) (ow gr : string) : FileInfo :=
  {| info := inf;
     mode := if os.IsDir inf then Z.lor (os.Mode inf) os.ModeDir else os.Mode inf;
     owner := ow; group := gr |}.

(** The call [call] was made for the child [file] of the directory [path],
    whose elements are [paths]. *)
Definition call_for `{Backend} (d : GitDriver) (tree : Worktree) (path : string)
    (paths : list string) (w : World)
    (file : os.FileInfo) (call : FileInfo * result unit) : Prop :=
  exists inf ow gr,
    Filesystem_Stat tree (filepath.Join (paths ++ [os.Name file])) w = Ok inf /\
    server.GetOwner (Perm d) path = Ok ow /\
    server.GetGroup (Perm d) path = Ok gr /\
    call.1 = listed inf ow gr.

(** The loop of [ListDir] broke off at the child [file] with [e] before
    calling back: its stat or the owner or group lookup failed. *)
Definition lookup_failed `{Backend} (d : GitDriver) (tree : Worktree) (path : string)
    (paths : list string) (w : World) (file : os.FileInfo) (e : error) : Prop :=
  Filesystem_Stat tree (filepath.Join (paths ++ [os.Name file])) w = Err e \/
  server.GetOwner (Perm d) path = Err e \/
  server.GetGroup (Perm d) path = Err e.

(** ** Sample runs on the reference backend *)

(** The world a run leaves behind. *)
Definition after {S A} (m : M S A) (s : S) : S := (m s).1.

(** [/a] made in the empty repository, then [/a/f.txt] and [/a/g]
    uploaded. *)
Definition sample_dir : Mem.world :=
  after (Driver.MakeDir Mem.driver "/a") Mem.empty.

Definition sample_file : Mem.world :=
  after (Driver.PutFile Mem.driver "/a/f.txt" (Mem.reader "hello") false) sample_dir.

Definition sample_two : Mem.world :=
  after (Driver.PutFile Mem.driver "/a/g" (Mem.reader "x") true) sample_file.

(** [/x] uploaded with the bytes [ab]. *)
Definition sample_x : Mem.world :=
  after (Driver.PutFile Mem.driver "/x" (Mem.reader "ab") false) Mem.empty.

(** [/a/f.txt] renamed to [/b/g]. *)
Definition sample_renamed : Mem.world :=
  after (Driver.Rename Mem.driver "/a/f.txt" "/b/g") sample_file.

(** An upload that breaks off after two bytes. *)
Definition broken_upload : Reader :=
  {| rbytes := Mem.bytes "ab"; rerr := Some (errors.New "connection reset by peer") |}.

(** A permission collaborator that names the path it was asked about. *)
Definition echo_perm : server.Perm :=
  {| server.GetMode := fun _ => Ok 0;
     server.GetOwner := fun path => Ok ("owner of " +:+ path);
     server.GetGroup := fun path => Ok ("group of " +:+ path) |}.

Definition echo_driver : GitDriver := {| RootPath := "/srv/repo"; Perm := echo_perm |}.

(** The children of [/a] in [sample_two], as the backend enumerates
    them, and the run of [ListDir] over them with a callback that accepts
    every entry. *)
Definition sample_children : list os.FileInfo :=
  [Mem.file_info ["a"; "f.txt"] (Mem.RegularFile (Mem.bytes "hello"));
   Mem.file_info ["a"; "g"] (Mem.RegularFile (Mem.bytes "x"))].

Definition accept_all : Callback unit := fun _ => ret tt.

Definition sample_listing (d : GitDriver) (path : string) (cb : Callback unit)
  : (Mem.world * (unit * list (FileInfo * result unit))) * result unit :=
  Driver.ListDir d path (recording cb) (sample_two, (tt, [])).

(** A callback that turns every entry down. *)
Definition reject_all : Callback unit := fun _ => fail (errors.New "stop").

(** ** Further definitions *)

(** A path element that [Clean] keeps when no [..] is around: neither
    empty nor [.]. *)
Definition named (e : string) : bool :=
  negb (String.eqb e "") && negb (String.eqb e ".").

(** [GitDriverFactory] and its [NewDriver]: a driver per client session,
    bound to the factory's root and permission collaborator. *)
Record GitDriverFactory := {
  FactoryRootPath : string;
  FactoryPerm : server.Perm
}.

Definition NewDriver (factory : GitDriverFactory) : result GitDriver :=
  Ok {| RootPath := FactoryRootPath factory; Perm := FactoryPerm factory |}.

(** The commit the driver's [commit] makes at the time [now] over the
    staged entries [staged]. *)
Definition stamp (now : Z) (staged : gmap (list string) Mem.node) : Mem.commit_record :=
  {| Mem.message := "example go-git commit";
     Mem.author := {| git.SigName := "John Doe"; git.SigEmail := "john@doe.org";
                      git.SigWhen := now |};
     Mem.snapshot := staged |}.

(** The metadata [Stat] gives for [/a/f.txt] and the entry [ListDir]
    gives for [g] in [/a], in [sample_two] with the collaborator
    [echo_perm], whose mode is 0 for every path. *)
Definition sample_stat_entry : FileInfo :=
  {| info := Mem.file_info ["a"; "f.txt"] (Mem.RegularFile (Mem.bytes "hello"));
     mode := 0; owner := "owner of /a/f.txt"; group := "group of /a/f.txt" |}.

Definition sample_list_entry : FileInfo :=
  listed (Mem.file_info ["a"; "g"] (Mem.RegularFile (Mem.bytes "x")))
    "owner of /a" "group of /a".

(** ** The steps of a mutating call *)

(** The change a mutating operation asks of the backend, with the check
    of the entry's kind that goes before it: what the operation does
    between opening the work tree and staging.  For [MakeDir] the
    [MkdirAll]; for [DeleteDir] and [DeleteFile] the [Lstat], the kind
    check and the [Remove]; for [Rename] the [Rename]; for [PutFile] all
    from the [Lstat] to the [io.Copy], on either branch. *)
Definition change `{Backend} (tree : Worktree) (op : mutation) : M World unit :=
  (match op with
   | OpMakeDir path => Filesystem_MkdirAll tree path os.ModePerm
   | OpDeleteDir path =>
       let! f := query (Filesystem_Lstat tree path) in
       if negb (os.IsDir f) then fail (errors.New "Not a directory")
       else Filesystem_Remove tree path
   | OpDeleteFile path =>
       let! f := query (Filesystem_Lstat tree path) in
       if os.IsDir f then fail (errors.New "Not a file")
       else Filesystem_Remove tree path
   | OpRename fromPath toPath => Filesystem_Rename tree fromPath toPath
   | OpPutFile destPath data appendData =>
       let! st := attempt (query (Filesystem_Lstat tree destPath)) in
       let! isExist :=
         match st with
         | Ok f =>
             if os.IsDir f then fail (errors.New "A dir has the same name")
             else ret true
         | Err err =>
             if os.IsNotExist err then ret false
             else fail (errors.New (fmt.Sprintln "Put File error:" err))
         end in
       let appendData := if appendData && negb isExist then false else appendData in
       if negb appendData then
         do! (if isExist : bool then Filesystem_Remove tree destPath else ret tt) in
         let! f := Filesystem_Create tree destPath in
         forget (io_Copy f data)
       else
         let! of' := query (Filesystem_OpenFile tree destPath
                             (Z.lor os.O_APPEND os.O_RDWR) 432 (* 0660 *)) in
         let! of' := query (fun w => match File_Seek of' 0 os.SEEK_END w with
                                     | Ok (moved, _) => Ok moved
                                     | Err e => Err e
                                     end) in
         forget (io_Copy of' data)
   end)%go.

(** The staging of the paths of an operation, one [add] after the
    other. *)
Fixpoint stage `{Backend} (r : Repository) (paths : list string) : M World unit :=
  match paths with
  | [] => ret tt
  | p :: rest => (do! Driver.add p r in stage r rest)%go
  end.

(** The common shape of a mutating call: open the repository, open the
    work tree, make the change, stage the paths, commit.  The first step
    that fails ends the call with its error and the state it left. *)
Definition steps `{Backend} (d : GitDriver) (op : mutation) : M World unit :=
  (let! r := query (PlainOpen (RootPath d)) in
   let! tree := query (Repository_Worktree r) in
   do! change tree op in
   do! stage r (staged_paths op) in
   Driver.commit r)%go.

(** What a state of the reference backend holds beside the work tree. *)
Definition beside_tree (w : Mem.world)
  : string * gmap (list string) Mem.node * list Mem.commit_record * Z :=
  (Mem.root w, Mem.index w, Mem.log w, Mem.clock w).

(** A step of the reference backend that touches nothing but the work
    tree, whatever it returns. *)
Definition tree_only {A} (m : M Mem.world A) : Prop :=
  forall w, beside_tree (m w).1 = beside_tree w.

(** [/a/f.txt], which held [hello], after the upload that broke off; then
    [/x] uploaded with success. *)
Definition sample_broken : Mem.world :=
  after (call Mem.driver (OpPutFile "/a/f.txt" broken_upload false)) sample_file.

Definition sample_later : Mem.world :=
  after (call Mem.driver (OpPutFile "/x" (Mem.reader "ab") false)) sample_broken.

(** The directory [b] made at a path that cannot be staged: the change
    alone, and the whole call. *)
Definition sample_changed : Mem.world :=
  after (change (H := MemBackend) tt (OpMakeDir "b")) sample_file.

Definition sample_unstaged : Mem.world :=
  after (call Mem.driver (OpMakeDir "b")) sample_file.

(** * Theorems *)

(** ** The monad *)

Lemma bind_Ok_inv {S A B} (m : M S A) (k : A -> M S B) s s' b :
  bind m k s = (s', Ok b) ->
  exists a s1, m s = (s1, Ok a) /\ k a s1 = (s', Ok b).
Proof.
  unfold bind. destruct (m s) as [s1 [a|e]]; [eauto | discriminate].
Qed.

Lemma bind_Ok_step {S A B} (m : M S A) (k : A -> M S B) s s1 a :
  m s = (s1, Ok a) -> bind m k s = k a s1.
Proof. unfold bind. now intros ->. Qed.

Lemma query_inv {S A} (f : S -> result A) s s' r :
  query f s = (s', r) -> s' = s /\ f s = r.
Proof. unfold query. now intros [= <- <-]. Qed.

(** Inverts the equations of a run, one step at a time. *)
Ltac run_inv :=
  repeat match goal with
    | H : bind _ _ _ = (_, Ok _) |- _ =>
        apply bind_Ok_inv in H; destruct H as (? & ? & ? & H)
    | H : query _ _ = (_, _) |- _ =>
        apply query_inv in H; destruct H as [-> H]
    | H : ret _ _ = (_, _) |- _ => unfold ret in H; injection H as <- <-
    | H : ret _ _ = (_, _) |- _ => unfold ret in H; injection H as <-
    | H : fail _ _ = (_, Ok _) |- _ => discriminate H
    | H : (_, _) = (_, _) |- _ => injection H as ? ?; subst
    end.

(** ** Which steps touch the commit log *)

Section CommitLog.
Context {B : Backend}.

Lemma keeps_ret {A} (a : A) : keeps_log (ret a).
Proof. now intros w. Qed.

Lemma keeps_fail {A} (e : error) : keeps_log (fail (A := A) e).
Proof. now intros w. Qed.

Lemma keeps_query {A} (f : World -> result A) : keeps_log (query f).
Proof. now intros w. Qed.

Lemma keeps_bind {A C} (m : M World A) (k : A -> M World C) :
  keeps_log m -> (forall a, keeps_log (k a)) -> keeps_log (bind m k).
Proof.
  intros Hm Hk w. unfold bind. specialize (Hm w).
  destruct (m w) as [w1 [a|e]]; simpl in *; [| done].
  now rewrite Hk.
Qed.

Lemma keeps_attempt {A} (m : M World A) : keeps_log m -> keeps_log (attempt m).
Proof.
  intros Hm w. unfold attempt. specialize (Hm w). now destruct (m w).
Qed.

Lemma one_fail {A} (e : error) : one_commit (fail (A := A) e).
Proof. now intros w. Qed.

Lemma one_after {A C} (m : M World A) (k : A -> M World C) :
  keeps_log m -> (forall a, one_commit (k a)) -> one_commit (bind m k).
Proof.
  intros Hm Hk w. unfold bind. specialize (Hm w).
  destruct (m w) as [w1 [a|e]]; simpl in *; [| done].
  specialize (Hk a w1). destruct (k a w1) as [w2 [c|e]]; congruence.
Qed.

Lemma one_then_ret {A C} (m : M World A) (c : C) :
  one_commit m -> one_commit (bind m (fun _ => ret c)).
Proof.
  intros Hm w. unfold bind, ret. specialize (Hm w).
  now destruct (m w) as [w1 [a|e]].
Qed.

Lemma ends_fail {A} (e : error) : ends_in_commit (fail (A := A) e).
Proof. intros w w' a. discriminate. Qed.

Lemma ends_after {A C} (m : M World A) (k : A -> M World C) :
  (forall a, ends_in_commit (k a)) -> ends_in_commit (bind m k).
Proof.
  intros Hk w w' c H. apply bind_Ok_inv in H as (a & w1 & _ & H).
  exact (Hk a w1 w' c H).
Qed.

Lemma ends_commit r : ends_in_commit (Driver.commit r).
Proof. intros w w' [] H. eauto. Qed.

Lemma ends_then_ret {A C} (m : M World A) (c : C) :
  ends_in_commit m -> ends_in_commit (bind m (fun _ => ret c)).
Proof.
  intros Hm w w' c' H. apply bind_Ok_inv in H as (a & w1 & H & E).
  unfold ret in E. injection E as <- <-.
  destruct (Hm _ _ _ H) as (r & w0 & Hc). eauto.
Qed.

Context {L : BackendLaws B}.

Lemma keeps_io_Copy dst src : keeps_log (io_Copy dst src).
Proof.
  unfold io_Copy. apply keeps_bind.
  - destruct (rbytes src); [apply keeps_ret | intros w; apply Write_commits].
  - intros n. destruct (rerr src); [apply keeps_fail | apply keeps_ret].
Qed.

Lemma keeps_add p r : keeps_log (Driver.add p r).
Proof.
  unfold Driver.add.
  repeat (apply keeps_bind; [| intros ?]);
    try apply keeps_query; try apply keeps_ret.
  intros w. apply Add_commits.
Qed.

Lemma one_commit_commit r : one_commit (Driver.commit r).
Proof.
  unfold Driver.commit.
  apply one_after; [apply keeps_query | intros tree].
  apply one_after; [apply keeps_query | intros now].
  apply one_then_ret. intros w.
  destruct (Worktree_Commit _ _ _ w) as [w' [h|e]] eqn:E.
  - eapply Commit_ok, E.
  - eapply Commit_err, E.
Qed.

End CommitLog.

Section Calls.
Context {B : Backend}.

Lemma on_fst_query {C A} (f : World -> result A) (w : World) (c : C) :
  on_fst (query f) (w, c) = ((w, c), f w).
Proof. reflexivity. Qed.

Lemma ListDir_range_world {C} d tree path paths (callback : Callback C) files w c :
  (Driver.ListDir_range d tree path paths callback files (w, c)).1.1 = w.
Proof.
  revert c. induction files as [| file files IH]; intros c; [done |].
  cbn [Driver.ListDir_range]. unfold bind at 1. rewrite on_fst_query.
  destruct (Filesystem_Stat _ _ w); [| done].
  unfold bind at 1, query at 1. destruct (server.GetOwner _ _); [| done].
  unfold bind at 1, query at 1. destruct (server.GetGroup _ _); [| done].
  unfold bind at 1, on_snd at 1.
  destruct (callback _ c) as [c' [[]|e]]; [apply IH | done].
Qed.

Lemma ListDir_world {C} d path (callback : Callback C) w c :
  (Driver.ListDir d path callback (w, c)).1.1 = w.
Proof.
  unfold Driver.ListDir.
  unfold bind at 1. rewrite on_fst_query. destruct (PlainOpen _ w); [| done].
  unfold bind at 1. rewrite on_fst_query. destruct (Repository_Worktree _ w); [| done].
  unfold bind at 1. rewrite on_fst_query. destruct (Filesystem_ReadDir _ _ w); [| done].
  apply ListDir_range_world.
Qed.

Lemma Stat_world d path w : (Driver.Stat d path w).1 = w.
Proof.
  unfold Driver.Stat, bind, query, ret.
  repeat match goal with
         | |- context [match ?x with Ok _ => _ | Err _ => _ end] => destruct x
         end; reflexivity.
Qed.

Lemma ChangeDir_world d path w : (Driver.ChangeDir d path w).1 = w.
Proof.
  unfold Driver.ChangeDir, bind, query, ret, fail.
  repeat match goal with
         | |- context [match ?x with Ok _ => _ | Err _ => _ end] => destruct x
         | |- context [if ?b then _ else _] => destruct b
         end; reflexivity.
Qed.

Lemma GetFile_world d path offset w : (Driver.GetFile d path offset w).1 = w.
Proof.
  unfold Driver.GetFile, bind, query, ret.
  repeat match goal with
         | |- context [match ?x with Ok _ => _ | Err _ => _ end] => destruct x
         | |- context [let '(_, _) := ?x in _] => destruct x
         end; reflexivity.
Qed.

Lemma refused_call d op w e :
  refused d op w = Some e -> call d op w = (w, Err e).
Proof.
  unfold refused.
  destruct (PlainOpen _ w) as [r|e0] eqn:Ho.
  2:{ intros [= ->]. destruct op; unfold call, forget, Driver.MakeDir,
        Driver.DeleteDir, Driver.DeleteFile, Driver.Rename, Driver.PutFile,
        bind, query, attempt; now rewrite Ho. }
  destruct (Repository_Worktree r w) as [t|e0] eqn:Ht.
  2:{ intros [= ->]. destruct op; unfold call, forget, Driver.MakeDir,
        Driver.DeleteDir, Driver.DeleteFile, Driver.Rename, Driver.PutFile,
        bind, query, attempt; now rewrite Ho, Ht. }
  destruct op as [p | p | p | p q | p data a]; try discriminate.
  - destruct (Filesystem_Lstat t p w) as [f|e0] eqn:Hl.
    + destruct (os.IsDir f) eqn:Hd; [discriminate |]. intros [= <-].
      cbn. unfold Driver.DeleteDir, bind, query. now rewrite Ho, Ht, Hl, Hd.
    + intros [= ->]. cbn. unfold Driver.DeleteDir, bind, query.
      now rewrite Ho, Ht, Hl.
  - destruct (Filesystem_Lstat t p w) as [f|e0] eqn:Hl.
    + destruct (os.IsDir f) eqn:Hd; [| discriminate]. intros [= <-].
      cbn. unfold Driver.DeleteFile, bind, query. now rewrite Ho, Ht, Hl, Hd.
    + intros [= ->]. cbn. unfold Driver.DeleteFile, bind, query.
      now rewrite Ho, Ht, Hl.
  - cbn. unfold forget, Driver.PutFile, bind, query, attempt.
    rewrite Ho, Ht.
    destruct (Filesystem_Lstat t p w) as [f|e0] eqn:Hl.
    + destruct (os.IsDir f) eqn:Hd; [| discriminate]. now intros [= <-].
    + destruct (os.IsNotExist e0) eqn:Hn; [discriminate |]. now intros [= <-].
Qed.

Lemma ends_call d op : ends_in_commit (call d op).
Proof.
  destruct op as [p | p | p | p q | p data a]; cbn;
    unfold Driver.MakeDir, Driver.DeleteDir, Driver.DeleteFile, Driver.Rename.
  - do 4 (apply ends_after; intros ?). apply ends_commit.
  - do 3 (apply ends_after; intros ?).
    destruct (negb _); [apply ends_fail |].
    do 2 (apply ends_after; intros ?). apply ends_commit.
  - do 3 (apply ends_after; intros ?).
    destruct (os.IsDir _); [apply ends_fail |].
    do 2 (apply ends_after; intros ?). apply ends_commit.
  - do 5 (apply ends_after; intros ?). apply ends_commit.
  - unfold forget. apply ends_then_ret. unfold Driver.PutFile.
    do 4 (apply ends_after; intros ?).
    destruct (negb _).
    + do 4 (apply ends_after; intros ?). apply ends_then_ret, ends_commit.
    + do 4 (apply ends_after; intros ?). apply ends_then_ret, ends_commit.
Qed.

Context {L : BackendLaws B}.

Lemma one_commit_call d op : one_commit (call d op).
Proof.
  destruct op as [p | p | p | p q | p data a]; cbn;
    unfold Driver.MakeDir, Driver.DeleteDir, Driver.DeleteFile, Driver.Rename.
  - do 2 (apply one_after; [apply keeps_query | intros ?]).
    apply one_after; [intros w; apply MkdirAll_commits | intros ?].
    apply one_after; [apply keeps_add | intros ?]. apply one_commit_commit.
  - do 3 (apply one_after; [apply keeps_query | intros ?]).
    destruct (negb _); [apply one_fail |].
    apply one_after; [intros w; apply Remove_commits | intros ?].
    apply one_after; [apply keeps_add | intros ?]. apply one_commit_commit.
  - do 3 (apply one_after; [apply keeps_query | intros ?]).
    destruct (os.IsDir _); [apply one_fail |].
    apply one_after; [intros w; apply Remove_commits | intros ?].
    apply one_after; [apply keeps_add | intros ?]. apply one_commit_commit.
  - do 2 (apply one_after; [apply keeps_query | intros ?]).
    apply one_after; [intros w; apply Rename_commits | intros ?].
    do 2 (apply one_after; [apply keeps_add | intros ?]). apply one_commit_commit.
  - unfold forget. apply one_then_ret. unfold Driver.PutFile.
    do 2 (apply one_after; [apply keeps_query | intros ?]).
    apply one_after; [apply keeps_attempt, keeps_query | intros st].
    apply one_after.
    { destruct st as [f|e]; [destruct (os.IsDir f) | destruct (os.IsNotExist e)];
        first [apply keeps_fail | apply keeps_ret]. }
    intros isExist. destruct (negb _).
    + apply one_after.
      { destruct isExist; [intros w; apply Remove_commits | apply keeps_ret]. }
      intros _. apply one_after; [intros w; apply Create_commits | intros f].
      apply one_after; [apply keeps_io_Copy | intros n].
      apply one_after; [apply keeps_add | intros ?].
      apply one_then_ret, one_commit_commit.
    + do 2 (apply one_after; [apply keeps_query | intros ?]).
      apply one_after; [apply keeps_io_Copy | intros n].
      apply one_after; [apply keeps_add | intros ?].
      apply one_then_ret, one_commit_commit.
Qed.

End Calls.

(** ** The reference backend keeps the laws *)

#[export] Instance MemLaws : BackendLaws MemBackend.
Proof.
  split; cbn.
  - intros _ p w. unfold Mem.Create. repeat case_match; reflexivity.
  - intros _ p w. unfold Mem.Remove. repeat case_match; reflexivity.
  - intros _ p q w. unfold Mem.Rename. repeat case_match; reflexivity.
  - intros _ p m w. unfold Mem.MkdirAll. repeat case_match; reflexivity.
  - intros f bs w. unfold Mem.Write. repeat case_match; reflexivity.
  - intros _ p w. unfold Mem.Add. repeat case_match; reflexivity.
  - intros _ msg o w w' h [= <-]. reflexivity.
  - intros _ msg o w w' e [=].
Qed.

(** ** Commits *)

(** C2. Every successful call of a mutating operation (MakeDir,
    DeleteDir, DeleteFile, Rename, PutFile) leaves the repository with
    exactly one commit more; Stat, ChangeDir, ListDir and GetFile leave
    the number of commits as it is. *)
Theorem commit_count {B : Backend} {L : BackendLaws B} (d : GitDriver) (w : World) :
  (forall op w', call d op w = (w', Ok tt) ->
     CommitCount w' = S (CommitCount w)) /\
  (forall path, CommitCount (Driver.Stat d path w).1 = CommitCount w) /\
  (forall path, CommitCount (Driver.ChangeDir d path w).1 = CommitCount w) /\
  (forall C path (callback : Callback C) c,
     CommitCount (Driver.ListDir d path callback (w, c)).1.1 = CommitCount w) /\
  (forall path offset,
     CommitCount (Driver.GetFile d path offset w).1 = CommitCount w).
Proof.
  split; [| repeat split].
  - intros op w' H. pose proof (one_commit_call d op w) as Hc.
    now rewrite H in Hc.
  - intros path. now rewrite Stat_world.
  - intros path. now rewrite ChangeDir_world.
  - intros C path callback c. now rewrite ListDir_world.
  - intros path offset. now rewrite GetFile_world.
Qed.

Lemma commit_count_witness :
  CommitCount (after (call Mem.driver (OpPutFile "/a/f.txt" (Mem.reader "hello") false))
                 sample_dir) = 2%nat.
Proof.
  destruct (commit_count (L := MemLaws) Mem.driver sample_dir) as [H _].
  apply (H (OpPutFile "/a/f.txt" (Mem.reader "hello") false)).
  vm_compute. reflexivity.
Defined.

(** ** Kind checks *)

(** C5. On a path whose entry is a directory, DeleteFile fails with
    the error [Not a file]; on a path whose entry is not a directory,
    DeleteDir fails with [Not a directory].  Either way the state is the
    one before the call: no commit is made and the entry is still there. *)
Theorem delete_wrong_kind {B : Backend} (d : GitDriver) (path : string)
    (w : World) r tree f :
  PlainOpen (RootPath d) w = Ok r ->
  Repository_Worktree r w = Ok tree ->
  Filesystem_Lstat tree path w = Ok f ->
  (os.IsDir f = true ->
     let out := Driver.DeleteFile d path w in
     out = (w, Err (errors.New "Not a file")) /\
     CommitCount out.1 = CommitCount w /\
     Filesystem_Lstat tree path out.1 = Ok f) /\
  (os.IsDir f = false ->
     let out := Driver.DeleteDir d path w in
     out = (w, Err (errors.New "Not a directory")) /\
     CommitCount out.1 = CommitCount w /\
     Filesystem_Lstat tree path out.1 = Ok f).
Proof.
  intros Ho Ht Hl. split; intros Hd; cbv zeta.
  - assert (E : Driver.DeleteFile d path w = (w, Err (errors.New "Not a file"))).
    { unfold Driver.DeleteFile, bind, query. now rewrite Ho, Ht, Hl, Hd. }
    rewrite E. auto.
  - assert (E : Driver.DeleteDir d path w = (w, Err (errors.New "Not a directory"))).
    { unfold Driver.DeleteDir, bind, query. now rewrite Ho, Ht, Hl, Hd. }
    rewrite E. auto.
Qed.

Lemma delete_wrong_kind_witness :
  Driver.DeleteFile Mem.driver "/a" sample_file
    = (sample_file, Err (errors.New "Not a file")) /\
  Driver.DeleteDir Mem.driver "/a/f.txt" sample_file
    = (sample_file, Err (errors.New "Not a directory")).
Proof.
  split.
  - refine (proj1 (proj1 (delete_wrong_kind Mem.driver "/a" sample_file tt tt
                      (Mem.file_info ["a"] Mem.Directory) _ _ _) _));
      vm_compute; reflexivity.
  - refine (proj1 (proj2 (delete_wrong_kind Mem.driver "/a/f.txt" sample_file tt tt
                      (Mem.file_info ["a"; "f.txt"] (Mem.RegularFile (Mem.bytes "hello")))
                      _ _ _) _));
      vm_compute; reflexivity.
Defined.

(** ** Listing a directory *)

Section Listing.
Context {B : Backend} (d : GitDriver) {C : Type} (callback : Callback C).
Context (tree : Worktree) (path : string) (paths : list string) (w : World).

Lemma ListDir_range_calls files : forall c calls0 w' c' calls res,
  Driver.ListDir_range d tree path paths (recording callback) files (w, (c, calls0))
    = ((w', (c', calls)), res) ->
  exists new,
    calls = calls0 ++ new /\
    Forall2 (call_for d tree path paths w) (take (length new) files) new /\
    (forall i fi e, new !! i = Some (fi, Err e) -> S i = length new /\ res = Err e) /\
    (res = Ok tt -> length new = length files) /\
    (forall e, res = Err e ->
       (exists fi, last new = Some (fi, Err e)) \/
       (exists file, files !! length new = Some file /\ lookup_failed d tree path paths w file e)).
Proof.
  induction files as [| file files IH]; intros c calls0 w' c' calls res.
  { intros [= <- <- <- <-]. exists []. rewrite app_nil_r.
    repeat split; first [done | constructor]. }
  cbn [Driver.ListDir_range]. unfold bind at 1. rewrite on_fst_query.
  set (q := filepath.Join (paths ++ [os.Name file])).
  assert (stop : forall e, lookup_failed d tree path paths w file e ->
            (w, (c, calls0), Err e) = (w', (c', calls), res) ->
            exists new : list (FileInfo * result unit),
              calls = calls0 ++ new /\
              Forall2 (call_for d tree path paths w) (take (length new) (file :: files)) new /\
              (forall i fi e0, new !! i = Some (fi, Err e0) ->
                 S i = length new /\ res = Err e0) /\
              (res = Ok tt -> length new = length (file :: files)) /\
              (forall e0, res = Err e0 ->
                 (exists fi, last new = Some (fi, Err e0)) \/
                 (exists file0, (file :: files) !! length new = Some file0 /\
                                lookup_failed d tree path paths w file0 e0))).
  { intros e He [= <- <- <- <-]. exists []. rewrite app_nil_r.
    repeat split; try done; try (constructor; fail).
    intros e0 [= <-]. right. exists file. split; [done | exact He]. }
  destruct (Filesystem_Stat tree q w) as [inf|e] eqn:Hs.
  2:{ apply stop. left. exact Hs. }
  unfold bind at 1, query at 1.
  destruct (server.GetOwner (Perm d) path) as [ow|e] eqn:Hown.
  2:{ apply stop. right; left. exact Hown. }
  unfold bind at 1, query at 1.
  destruct (server.GetGroup (Perm d) path) as [gr|e] eqn:Hgrp.
  2:{ apply stop. right; right. exact Hgrp. }
  clear stop. unfold bind at 1, on_snd at 1, recording at 1.
  change (Build_FileInfo inf _ ow gr) with (listed inf ow gr).
  assert (Hfor : call_for d tree path paths w file (listed inf ow gr, Ok tt) /\
                 forall e, call_for d tree path paths w file (listed inf ow gr, Err e)).
  { split; [| intros e]; exists inf, ow, gr; auto. }
  destruct Hfor as [Hfor_ok Hfor_err].
  destruct (callback (listed inf ow gr) c) as [c1 [[]|e]].
  - intros H. apply IH in H as (new & -> & Hall & Hlast & Hok & Herr).
    exists ((listed inf ow gr, Ok tt) :: new). rewrite <- app_assoc.
    repeat split.
    + cbn. constructor; assumption.
    + destruct i as [| i]; [discriminate |].
      cbn in H. apply Hlast in H as [H _]. cbn. now rewrite H.
    + destruct i as [| i]; [discriminate |].
      cbn in H. now apply Hlast in H.
    + intros Hres. cbn. now rewrite Hok.
    + intros e Hres. destruct (Herr e Hres) as [(fi & Hl) | (file0 & Hl & Hf)].
      * left. exists fi. rewrite last_cons, Hl. reflexivity.
      * right. exists file0. split; [exact Hl | exact Hf].
  - intros [= <- <- <- <-]. exists [(listed inf ow gr, Err e)].
    repeat split.
    + cbn. rewrite take_0. constructor; [apply Hfor_err | constructor].
    + destruct i as [| i]; [reflexivity | discriminate].
    + destruct i as [| i]; [| discriminate]. now injection H as <- <-.
    + discriminate.
    + intros e0 [= <-]. left. exists (listed inf ow gr). reflexivity.
Qed.

End Listing.

(** A run of [ListDir] either stopped before its loop, the callback's
    state untouched, or ran the loop over the children the backend
    enumerated. *)
Lemma ListDir_inv {B : Backend} (d : GitDriver) {C} (callback : Callback C)
    path w c w' c' res :
  Driver.ListDir d path callback (w, c) = ((w', c'), res) ->
  c' = c \/
  exists r tree files,
    PlainOpen (RootPath d) w = Ok r /\
    Repository_Worktree r w = Ok tree /\
    Filesystem_ReadDir tree path w = Ok files /\
    Driver.ListDir_range d tree path (strings.Split path "/") callback files (w, c)
      = ((w', c'), res).
Proof.
  unfold Driver.ListDir.
  unfold bind at 1. rewrite on_fst_query.
  destruct (PlainOpen _ w) as [r|e] eqn:Ho; [| intros [= <- <- <-]; now left].
  unfold bind at 1. rewrite on_fst_query.
  destruct (Repository_Worktree r w) as [t|e] eqn:Ht;
    [| intros [= <- <- <-]; now left].
  unfold bind at 1. rewrite on_fst_query.
  destruct (Filesystem_ReadDir t path w) as [files|e] eqn:Hr;
    [| intros [= <- <- <-]; now left].
  intros H. right. exists r, t, files. auto.
Qed.

(** Every call [ListDir] records was made with a record it built from a
    child's backend stat and the owner and group of the listed path. *)
Lemma ListDir_calls_listed {B : Backend} (d : GitDriver) {C} (callback : Callback C)
    path w c w' c' calls res :
  Driver.ListDir d path (recording callback) (w, (c, [])) = ((w', (c', calls)), res) ->
  forall fi a, (fi, a) ∈ calls ->
    exists inf ow gr,
      server.GetOwner (Perm d) path = Ok ow /\
      server.GetGroup (Perm d) path = Ok gr /\
      fi = listed inf ow gr.
Proof.
  intros H fi a Hin.
  apply ListDir_inv in H as [[= -> ->] | (r & t & files & _ & _ & _ & H)].
  { now apply elem_of_nil in Hin. }
  apply ListDir_range_calls in H as (new & -> & Hall & _). cbn in Hin.
  apply list_elem_of_lookup in Hin as [i Hi].
  destruct (Forall2_lookup_r _ _ _ _ _ Hall Hi) as (file & _ & inf & ow & gr & _ & Ho & Hg & E).
  exists inf, ow, gr. auto.
Qed.

(** C7. Let the backend enumerate the children [files] of a directory.
    The calls [ListDir] makes to its callback are for the first children
    of [files], one call per child and in the order of [files].  A call
    the callback answers with an error is the last call, and its error is
    what [ListDir] returns.  When [ListDir] returns without error it has
    called back once for each of the children; when it returns an error,
    that error is either the answer to its last call or the failure of
    the stat, owner or group lookup for the next child, for which, and for
    all later children, no call is made. *)
Theorem ListDir_callbacks {B : Backend} (d : GitDriver) {C} (callback : Callback C)
    (path : string) (w : World) (c : C) r tree files w' c' calls res :
  PlainOpen (RootPath d) w = Ok r ->
  Repository_Worktree r w = Ok tree ->
  Filesystem_ReadDir tree path w = Ok files ->
  Driver.ListDir d path (recording callback) (w, (c, [])) = ((w', (c', calls)), res) ->
  let paths := strings.Split path "/" in
  (length calls <= length files)%nat /\
  Forall2 (fun file call =>
             Filesystem_Stat tree (filepath.Join (paths ++ [os.Name file])) w
             = Ok (info call.1))
          (take (length calls) files) calls /\
  (forall i fi e, calls !! i = Some (fi, Err e) ->
     S i = length calls /\ res = Err e) /\
  (res = Ok tt -> length calls = length files) /\
  (forall e, res = Err e ->
     (exists fi, last calls = Some (fi, Err e)) \/
     (exists file, files !! length calls = Some file /\
                   lookup_failed d tree path paths w file e)).
Proof.
  intros Ho Ht Hr H paths.
  unfold Driver.ListDir in H.
  unfold bind at 1 in H. rewrite on_fst_query, Ho in H.
  unfold bind at 1 in H. rewrite on_fst_query, Ht in H.
  unfold bind at 1 in H. rewrite on_fst_query, Hr in H.
  apply ListDir_range_calls in H as (new & -> & Hall & Hlast & Hok & Herr).
  cbn [app]. split; [| split; [| split; [| split]]].
  - apply Forall2_length in Hall. rewrite length_take in Hall. lia.
  - eapply Forall2_impl; [exact Hall |].
    intros file call (inf & ow & gr & Hs & _ & _ & E). rewrite E. exact Hs.
  - exact Hlast.
  - exact Hok.
  - exact Herr.
Qed.

Lemma ListDir_callbacks_witness :
  (sample_listing Mem.driver "/a" accept_all).2 = Ok tt /\
  length (sample_listing Mem.driver "/a" accept_all).1.2.2 = 2%nat.
Proof.
  split; [vm_compute; reflexivity |].
  refine (proj1 (proj2 (proj2 (proj2
    (ListDir_callbacks Mem.driver accept_all "/a" sample_two tt tt tt
       sample_children sample_two tt
       (sample_listing Mem.driver "/a" accept_all).1.2.2 (Ok tt) _ _ _ _)))) _);
    vm_compute; reflexivity.
Defined.

(** A callback that answers the first entry with an error is not called
    again, and its error is what [ListDir] returns. *)
Example ListDir_stops_at_error :
  (sample_listing Mem.driver "/a" reject_all).2 = Err (errors.New "stop") /\
  (sample_listing Mem.driver "/a" reject_all).1.2.2
  = [(listed (Mem.file_info ["a"; "f.txt"] (Mem.RegularFile (Mem.bytes "hello")))
        "user" "group", Err (errors.New "stop"))].
Proof. vm_compute. split; reflexivity. Qed.

(** ** Metadata *)

Lemma ModeDir_set (m : os.FileMode) :
  Z.land (Z.lor m os.ModeDir) os.ModeDir = os.ModeDir.
Proof.
  apply Z.bits_inj'. intros n _.
  rewrite Z.land_spec, Z.lor_spec.
  destruct (Z.testbit m n), (Z.testbit os.ModeDir n); reflexivity.
Qed.

Lemma ModeDir_bit (m : os.FileMode) : Z.testbit (Z.lor m os.ModeDir) 31 = true.
Proof. rewrite Z.lor_spec. apply orb_true_r. Qed.

Lemma Stat_inv {B : Backend} (d : GitDriver) path w w' fi :
  Driver.Stat d path w = (w', Ok fi) ->
  exists r tree f m ow gr,
    PlainOpen (RootPath d) w = Ok r /\
    Repository_Worktree r w = Ok tree /\
    Filesystem_Stat tree path w = Ok f /\
    server.GetMode (Perm d) path = Ok m /\
    server.GetOwner (Perm d) path = Ok ow /\
    server.GetGroup (Perm d) path = Ok gr /\
    fi = {| info := f; mode := if os.IsDir f then Z.lor m os.ModeDir else m;
            owner := ow; group := gr |}.
Proof.
  unfold Driver.Stat. intros H. run_inv.
  repeat eexists; eassumption.
Qed.

(** C6. When the backend's stat of a path reports a directory, the mode
    in the metadata [Stat] returns has the directory bit (bit 31,
    [os.ModeDir]) set, whatever mode the permission collaborator gave; so
    has the mode of every entry [ListDir] hands to its callback whose
    backend stat reports a directory. *)
Theorem directory_bit {B : Backend} (d : GitDriver) (w : World) :
  (forall path w' fi,
     Driver.Stat d path w = (w', Ok fi) ->
     os.IsDir (info fi) = true ->
     Z.testbit (mode fi) 31 = true /\ Z.land (mode fi) os.ModeDir = os.ModeDir) /\
  (forall C (callback : Callback C) path c w' c' calls res,
     Driver.ListDir d path (recording callback) (w, (c, [])) = ((w', (c', calls)), res) ->
     forall fi a, (fi, a) ∈ calls ->
     os.IsDir (info fi) = true ->
     Z.testbit (mode fi) 31 = true /\ Z.land (mode fi) os.ModeDir = os.ModeDir).
Proof.
  split.
  - intros path w' fi H Hd.
    apply Stat_inv in H as (r & t & f & m & ow & gr & _ & _ & _ & _ & _ & _ & ->).
    cbn in *. rewrite Hd. split; [apply ModeDir_bit | apply ModeDir_set].
  - intros C callback path c w' c' calls res H fi a Hin Hd.
    destruct (ListDir_calls_listed _ _ _ _ _ _ _ _ _ H fi a Hin)
      as (inf & ow & gr & _ & _ & ->).
    cbn in *. rewrite Hd. split; [apply ModeDir_bit | apply ModeDir_set].
Qed.

Lemma directory_bit_witness :
  (Driver.Stat Mem.driver "/a" sample_two).2
  = Ok (Build_FileInfo (Mem.file_info ["a"] Mem.Directory) 2147484159 "user" "group") /\
  Z.testbit 2147484159 31 = true /\ Z.land 2147484159 os.ModeDir = os.ModeDir.
Proof.
  split; [vm_compute; reflexivity |].
  refine (proj1 (directory_bit Mem.driver sample_two) "/a" sample_two
            (Build_FileInfo (Mem.file_info ["a"] Mem.Directory) 2147484159
               "user" "group") _ _);
    vm_compute; reflexivity.
Defined.

(** C8. The owner and the group of every entry [ListDir] hands to its
    callback are the answers of the permission collaborator for the path
    of the listed directory itself. *)
Theorem listing_owner_of_listed_path {B : Backend} (d : GitDriver) {C}
    (callback : Callback C) (path : string) (w : World) c w' c' calls res :
  Driver.ListDir d path (recording callback) (w, (c, [])) = ((w', (c', calls)), res) ->
  forall fi a, (fi, a) ∈ calls ->
    server.GetOwner (Perm d) path = Ok (owner fi) /\
    server.GetGroup (Perm d) path = Ok (group fi).
Proof.
  intros H fi a Hin.
  destruct (ListDir_calls_listed _ _ _ _ _ _ _ _ _ H fi a Hin)
    as (inf & ow & gr & Ho & Hg & ->).
  split; assumption.
Qed.

(** With a permission collaborator that names the path it is asked
    about, the entries of [/a] carry the owner of [/a], not of
    [a/f.txt] or [a/g]. *)
Lemma listing_owner_witness :
  (fun call : FileInfo * result unit => (os.Name (info call.1), owner call.1, group call.1))
    <$> (sample_listing echo_driver "/a" accept_all).1.2.2
  = [("f.txt", "owner of /a", "group of /a"); ("g", "owner of /a", "group of /a")] /\
  server.GetOwner echo_perm "/a" = Ok "owner of /a" /\
  server.GetGroup echo_perm "/a" = Ok "group of /a".
Proof.
  split; [vm_compute; reflexivity |].
  refine (listing_owner_of_listed_path echo_driver accept_all "/a" sample_two tt
            sample_two tt (sample_listing echo_driver "/a" accept_all).1.2.2 (Ok tt) _
            (listed (Mem.file_info ["a"; "g"] (Mem.RegularFile (Mem.bytes "x")))
               "owner of /a" "group of /a") (Ok tt) _).
  - vm_compute. reflexivity.
  - vm_compute. apply list_elem_of_further, list_elem_of_here.
Defined.

(** ** Paths *)

Lemma append_assoc (a b c : string) : (a +:+ b) +:+ c = a +:+ (b +:+ c).
Proof.
  induction a as [| x a IH]; [reflexivity |].
  change (String x ((a +:+ b) +:+ c) = String x (a +:+ (b +:+ c))). now f_equal.
Qed.

Lemma append_nil_r (a : string) : a +:+ "" = a.
Proof.
  induction a as [| x a IH]; [reflexivity |].
  change (String x (a +:+ "") = String x a). now f_equal.
Qed.

Lemma no_sep_not_rooted (e : string) : no_sep e -> filepath.rooted e = false.
Proof.
  destruct e as [| c e]; [reflexivity |]. intros [Hc _]. cbn.
  now apply Ascii.eqb_neq.
Qed.

Lemma no_sep_app (a b : string) : no_sep a -> no_sep b -> no_sep (a +:+ b).
Proof.
  induction a as [| x a IH]; [auto |]. intros [Hx Ha] Hb.
  change (no_sep (String x (a +:+ b))). split; auto.
Qed.

Lemma split_from_sep (cur s : string) :
  strings.split_from "/" 0 cur (String "/" s)
  = cur :: strings.split_from "/" 0 "" s.
Proof. cbn. now destruct s. Qed.

Lemma split_from_other (cur s : string) (c : ascii) :
  c <> filepath.Separator ->
  strings.split_from "/" 0 cur (String c s)
  = strings.split_from "/" 0 (cur +:+ String c "") s.
Proof.
  intros Hc. cbn [strings.split_from String.prefix].
  destruct (ascii_dec "/" c) as [<- | _]; [now destruct Hc | reflexivity].
Qed.

Lemma split_from_no_sep (s cur : string) :
  no_sep cur -> Forall no_sep (strings.split_from "/" 0 cur s).
Proof.
  revert cur. induction s as [| c s IH]; intros cur Hcur.
  { cbn. now constructor. }
  destruct (ascii_dec c "/") as [-> | Hc].
  - rewrite split_from_sep. constructor; [exact Hcur | now apply IH].
  - rewrite split_from_other by exact Hc. apply IH.
    apply no_sep_app; [exact Hcur | now split].
Qed.

Lemma split_from_app (e cur s : string) :
  no_sep e ->
  strings.split_from "/" 0 cur (e +:+ s) = strings.split_from "/" 0 (cur +:+ e) s.
Proof.
  revert cur. induction e as [| c e IH]; intros cur He.
  { now rewrite append_nil_r. }
  destruct He as [Hc He]. change (String c e +:+ s) with (String c (e +:+ s)).
  rewrite split_from_other by exact Hc. rewrite IH by exact He.
  now rewrite append_assoc.
Qed.

(** Splitting what was joined gives the elements back. *)
Lemma split_concat (K : list string) (cur : string) :
  Forall no_sep K -> K <> [] ->
  strings.split_from "/" 0 cur (String.concat "/" K) = (cur +:+ hd "" K) :: tl K.
Proof.
  revert cur. induction K as [| e K IH]; intros cur HK Hne; [done |].
  apply Forall_cons in HK as [He HK].
  destruct K as [| e' K].
  - cbn [String.concat hd tl]. rewrite <- (append_nil_r e) at 1.
    now rewrite split_from_app.
  - change (String.concat "/" (e :: e' :: K))
      with (e +:+ String "/" (String.concat "/" (e' :: K))).
    rewrite split_from_app by exact He. rewrite split_from_sep.
    rewrite IH by (exact HK || done). reflexivity.
Qed.

Lemma clean_elems_plain (elems kept : list string) :
  Forall no_sep elems -> Forall plain kept ->
  Forall plain (filepath.clean_elems true kept elems).
Proof.
  revert kept. induction elems as [| e elems IH]; intros kept He Hk; [exact Hk |].
  apply Forall_cons in He as [He Hes]. cbn.
  destruct (String.eqb_spec e ""); [now apply IH |].
  destruct (String.eqb_spec e "."); [now apply IH |].
  destruct (String.eqb_spec e "..").
  - destruct kept as [| top below]; [now apply IH |].
    apply Forall_cons in Hk as [(_ & _ & Ht & _) Hb].
    destruct (String.eqb_spec top ".."); [done | now apply IH].
  - apply IH; [assumption |]. constructor; [| assumption]. now repeat split.
Qed.

Lemma clean_elems_of_plain (isroot : bool) (K kept : list string) :
  Forall plain K -> filepath.clean_elems isroot kept K = rev K ++ kept.
Proof.
  revert kept. induction K as [| e K IH]; intros kept HK; [reflexivity |].
  apply Forall_cons in HK as [(H1 & H2 & H3 & _) HK]. cbn.
  destruct (String.eqb_spec e ""); [done |].
  destruct (String.eqb_spec e "."); [done |].
  destruct (String.eqb_spec e ".."); [done |].
  rewrite IH by exact HK. now rewrite <- app_assoc.
Qed.

Lemma rooted_append (a b : string) :
  a <> "" -> filepath.rooted (a +:+ b) = filepath.rooted a.
Proof. destruct a; [congruence | reflexivity]. Qed.

Lemma rooted_concat (e : string) (rest : list string) :
  e <> "" -> filepath.rooted (String.concat "/" (e :: rest)) = filepath.rooted e.
Proof.
  intros He. destruct rest as [| e' rest]; [reflexivity |].
  cbn [String.concat]. now apply rooted_append.
Qed.

(** No element of a path split at the separator begins with it. *)
Lemma split_from_not_rooted (s cur : string) :
  no_sep cur ->
  Forall (fun e => filepath.rooted e = false) (strings.split_from "/" 0 cur s).
Proof.
  intros Hcur. eapply Forall_impl; [now apply split_from_no_sep |].
  exact no_sep_not_rooted.
Qed.

Lemma clean_elems_kept (isroot : bool) (elems kept : list string) :
  Forall (fun e => filepath.rooted e = false) elems ->
  Forall (fun e => filepath.rooted e = false /\ e <> "") kept ->
  Forall (fun e => filepath.rooted e = false /\ e <> "")
         (filepath.clean_elems isroot kept elems).
Proof.
  revert kept. induction elems as [| e elems IH]; intros kept He Hk; [exact Hk |].
  apply Forall_cons in He as [He Hes]. cbn.
  destruct (String.eqb_spec e ""); [now apply IH |].
  destruct (String.eqb_spec e "."); [now apply IH |].
  destruct (String.eqb_spec e "..").
  - destruct kept as [| top below].
    + destruct isroot; apply IH; try assumption. now repeat constructor.
    + apply Forall_cons in Hk as [Ht Hb].
      destruct (String.eqb top ".."); apply IH; try assumption.
      now repeat constructor.
  - apply IH; [assumption |]. now constructor.
Qed.

(** Cleaning a path keeps it rooted or not as it was. *)
Lemma Clean_rooted (path : string) :
  filepath.rooted (filepath.Clean path) = filepath.rooted path.
Proof.
  unfold filepath.Clean. destruct (filepath.rooted path) eqn:Hr; [reflexivity |].
  pose proof (clean_elems_kept false (strings.Split path "/") []
                (split_from_not_rooted path "" I) (Forall_nil_2 _)) as H.
  apply Forall_rev in H.
  destruct (rev _) as [| e rest]; [reflexivity |].
  apply Forall_cons in H as [[He Hne] _].
  unfold strings.Join. now rewrite rooted_concat.
Qed.

(** [filepath.Rel("/", path)] fails for every path that does not begin
    with the separator. *)
Lemma RelRoot_relative (path : string) :
  filepath.rooted path = false ->
  filepath.RelRoot path
  = Err (errors.New ("Rel: can't make " +:+ path +:+ " relative to /")).
Proof.
  intros Hr. unfold filepath.RelRoot.
  pose proof (Clean_rooted path) as Hc. rewrite Hr in Hc.
  destruct (String.eqb_spec (filepath.Clean path) "/") as [E | _].
  { rewrite E in Hc. discriminate. }
  now rewrite Hc.
Qed.

(** Staging a relative path fails, and leaves the state as it is. *)
Lemma add_relative {B : Backend} (path : string) r w :
  filepath.rooted path = false ->
  exists e, Driver.add path r w = (w, Err e).
Proof.
  intros Hr. unfold Driver.add, bind, query.
  destruct (Repository_Worktree r w); [| eauto].
  rewrite (RelRoot_relative _ Hr). eauto.
Qed.

(** A successful call has staged each of its paths. *)
Lemma call_Ok_staged {B : Backend} (d : GitDriver) (op : mutation) w w' :
  call d op w = (w', Ok tt) ->
  forall p, p ∈ staged_paths op ->
    exists r w1 w2, Driver.add p r w1 = (w2, Ok tt).
Proof.
  intros H p Hp.
  destruct op as [q | q | q | q q' | q data a]; cbn [call staged_paths] in *.
  - apply list_elem_of_singleton in Hp as ->.
    unfold Driver.MakeDir in H. run_inv.
    repeat match goal with u : unit |- _ => destruct u end. eauto.
  - apply list_elem_of_singleton in Hp as ->.
    unfold Driver.DeleteDir in H. run_inv.
    destruct (negb _); [discriminate |]. run_inv.
    repeat match goal with u : unit |- _ => destruct u end. eauto.
  - apply list_elem_of_singleton in Hp as ->.
    unfold Driver.DeleteFile in H. run_inv.
    destruct (os.IsDir _); [discriminate |]. run_inv.
    repeat match goal with u : unit |- _ => destruct u end. eauto.
  - unfold Driver.Rename in H. run_inv.
    repeat match goal with u : unit |- _ => destruct u end.
    apply elem_of_cons in Hp. destruct Hp as [-> | Hp]; [eauto |].
    apply list_elem_of_singleton in Hp as ->. eauto.
  - apply list_elem_of_singleton in Hp as ->.
    unfold forget, Driver.PutFile in H. run_inv.
    destruct (negb _); run_inv;
      repeat match goal with u : unit |- _ => destruct u end; eauto.
Qed.

(** Reduces a run of the driver along the steps whose results are known. *)
Ltac run_with Hr :=
  unfold bind, query, attempt, ret;
  repeat first
    [ progress cbn [negb andb]
    | match goal with
      | H : ?x = _ |- context [?x] => rewrite H
      end ];
  match goal with
  | |- exists e, Driver.add ?p ?r ?w = _ /\ _ =>
      destruct (add_relative p r w Hr) as [e He]; exists e; split; [exact He |];
      rewrite ?He; reflexivity
  end.

(** C10. A mutating operation called with a path that does not begin
    with [/] returns an error and adds no commit.  [filepath.Rel] with
    the base [/] refuses such a path, so once the backend has made the
    change the call fails in the staging step, and the state it leaves
    behind is the one with the change made. *)
Theorem relative_path_not_staged {B : Backend} {L : BackendLaws B}
    (d : GitDriver) (w : World) :
  (forall op,
     (exists p, p ∈ staged_paths op /\ filepath.rooted p = false) ->
     (exists e, (call d op w).2 = Err e) /\
     CommitCount (call d op w).1 = CommitCount w) /\
  (forall p, filepath.rooted p = false ->
     filepath.RelRoot p
     = Err (errors.New ("Rel: can't make " +:+ p +:+ " relative to /"))) /\
  (forall r tree,
     PlainOpen (RootPath d) w = Ok r ->
     Repository_Worktree r w = Ok tree ->
     (forall p w1,
        filepath.rooted p = false ->
        Filesystem_MkdirAll tree p os.ModePerm w = (w1, Ok tt) ->
        exists e, Driver.add p r w1 = (w1, Err e) /\
                  Driver.MakeDir d p w = (w1, Err e)) /\
     (forall p f w1,
        filepath.rooted p = false ->
        Filesystem_Lstat tree p w = Ok f -> os.IsDir f = true ->
        Filesystem_Remove tree p w = (w1, Ok tt) ->
        exists e, Driver.add p r w1 = (w1, Err e) /\
                  Driver.DeleteDir d p w = (w1, Err e)) /\
     (forall p f w1,
        filepath.rooted p = false ->
        Filesystem_Lstat tree p w = Ok f -> os.IsDir f = false ->
        Filesystem_Remove tree p w = (w1, Ok tt) ->
        exists e, Driver.add p r w1 = (w1, Err e) /\
                  Driver.DeleteFile d p w = (w1, Err e)) /\
     (forall p q w1,
        filepath.rooted p = false ->
        Filesystem_Rename tree p q w = (w1, Ok tt) ->
        exists e, Driver.add p r w1 = (w1, Err e) /\
                  Driver.Rename d p q w = (w1, Err e)) /\
     (forall p q w1 w2,
        filepath.rooted q = false ->
        Filesystem_Rename tree p q w = (w1, Ok tt) ->
        Driver.add p r w1 = (w2, Ok tt) ->
        exists e, Driver.add q r w2 = (w2, Err e) /\
                  Driver.Rename d p q w = (w2, Err e)) /\
     (forall p data appendData e0 f w1 w2 n,
        filepath.rooted p = false ->
        Filesystem_Lstat tree p w = Err e0 -> os.IsNotExist e0 = true ->
        Filesystem_Create tree p w = (w1, Ok f) ->
        io_Copy f data w1 = (w2, Ok n) ->
        exists e, Driver.add p r w2 = (w2, Err e) /\
                  Driver.PutFile d p data appendData w = (w2, Err e)) /\
     (forall p data f0 f w0 w1 w2 n,
        filepath.rooted p = false ->
        Filesystem_Lstat tree p w = Ok f0 -> os.IsDir f0 = false ->
        Filesystem_Remove tree p w = (w0, Ok tt) ->
        Filesystem_Create tree p w0 = (w1, Ok f) ->
        io_Copy f data w1 = (w2, Ok n) ->
        exists e, Driver.add p r w2 = (w2, Err e) /\
                  Driver.PutFile d p data false w = (w2, Err e)) /\
     (forall p data f0 f moved pos w1 n,
        filepath.rooted p = false ->
        Filesystem_Lstat tree p w = Ok f0 -> os.IsDir f0 = false ->
        Filesystem_OpenFile tree p (Z.lor os.O_APPEND os.O_RDWR) 432 w = Ok f ->
        File_Seek f 0 os.SEEK_END w = Ok (moved, pos) ->
        io_Copy moved data w = (w1, Ok n) ->
        exists e, Driver.add p r w1 = (w1, Err e) /\
                  Driver.PutFile d p data true w = (w1, Err e))).
Proof.
  split; [| split].
  - intros op (p & Hp & Hr).
    pose proof (one_commit_call d op w) as Hc.
    destruct (call d op w) as [w' [[] | e]] eqn:E; cbn.
    + destruct (call_Ok_staged d op w w' E p Hp) as (r & w1 & w2 & Ha).
      destruct (add_relative p r w1 Hr) as [e He]. congruence.
    + split; [eauto | exact Hc].
  - exact RelRoot_relative.
  - intros r tree Ho Ht. repeat split.
    + intros p w1 Hr Hm. unfold Driver.MakeDir. run_with Hr.
    + intros p f w1 Hr Hl Hd Hm. unfold Driver.DeleteDir. run_with Hr.
    + intros p f w1 Hr Hl Hd Hm. unfold Driver.DeleteFile. run_with Hr.
    + intros p q w1 Hr Hm. unfold Driver.Rename. run_with Hr.
    + intros p q w1 w2 Hr Hm Ha. unfold Driver.Rename. run_with Hr.
    + intros p data a e0 f w1 w2 n Hr Hl Hn Hc Hcopy. unfold Driver.PutFile.
      destruct a; run_with Hr.
    + intros p data f0 f w0 w1 w2 n Hr Hl Hd Hm Hc Hcopy. unfold Driver.PutFile.
      run_with Hr.
    + intros p data f0 f moved pos w1 n Hr Hl Hd Hof Hs Hcopy. unfold Driver.PutFile.
      run_with Hr.
Qed.

Lemma relative_path_witness :
  (exists e, Driver.MakeDir Mem.driver "a" Mem.empty
             = (after (Mem.MkdirAll "a" os.ModePerm) Mem.empty, Err e)) /\
  Mem.tree Mem.empty !! ["a"] = None /\
  Mem.tree (after (Driver.MakeDir Mem.driver "a") Mem.empty) !! ["a"]
  = Some Mem.Directory /\
  Mem.log (after (Driver.MakeDir Mem.driver "a") Mem.empty) = [].
Proof.
  split; [| vm_compute; repeat split].
  destruct (relative_path_not_staged (L := MemLaws) Mem.driver Mem.empty)
    as (_ & _ & H).
  destruct (H tt tt eq_refl eq_refl) as (Hmk & _).
  destruct (Hmk "a" (after (Mem.MkdirAll "a" os.ModePerm) Mem.empty) eq_refl eq_refl)
    as (e & _ & He).
  exists e. exact He.
Defined.

(** ** What a successful call has done *)

Lemma attempt_inv {S A} (m : M S A) s s' r :
  attempt m s = (s', Ok r) -> m s = (s', r).
Proof. unfold attempt. destruct (m s). now intros [= <- <-]. Qed.

Lemma Rename_Ok_inv {B : Backend} (d : GitDriver) fromPath toPath w w' :
  Driver.Rename d fromPath toPath w = (w', Ok tt) ->
  exists r tree w1 w2 w3,
    PlainOpen (RootPath d) w = Ok r /\
    Repository_Worktree r w = Ok tree /\
    Filesystem_Rename tree fromPath toPath w = (w1, Ok tt) /\
    Driver.add fromPath r w1 = (w2, Ok tt) /\
    Driver.add toPath r w2 = (w3, Ok tt) /\
    Driver.commit r w3 = (w', Ok tt).
Proof.
  unfold Driver.Rename. intros H. run_inv.
  repeat match goal with u : unit |- _ => destruct u end.
  repeat eexists; eassumption.
Qed.

Lemma PutFile_Ok_inv {B : Backend} (d : GitDriver) destPath data appendData w w' n :
  Driver.PutFile d destPath data appendData w = (w', Ok n) ->
  exists r tree,
    PlainOpen (RootPath d) w = Ok r /\
    Repository_Worktree r w = Ok tree /\
    ((exists f0 f moved pos w1 w2,
        appendData = true /\
        Filesystem_Lstat tree destPath w = Ok f0 /\ os.IsDir f0 = false /\
        Filesystem_OpenFile tree destPath (Z.lor os.O_APPEND os.O_RDWR) 432 w = Ok f /\
        File_Seek f 0 os.SEEK_END w = Ok (moved, pos) /\
        io_Copy moved data w = (w1, Ok n) /\
        Driver.add destPath r w1 = (w2, Ok tt) /\
        Driver.commit r w2 = (w', Ok tt)) \/
     (exists w0 f w1 w2 w3,
        ((exists e0, Filesystem_Lstat tree destPath w = Err e0 /\
                     os.IsNotExist e0 = true /\ w0 = w) \/
         (exists f0, appendData = false /\
                     Filesystem_Lstat tree destPath w = Ok f0 /\ os.IsDir f0 = false /\
                     Filesystem_Remove tree destPath w = (w0, Ok tt))) /\
        Filesystem_Create tree destPath w0 = (w1, Ok f) /\
        io_Copy f data w1 = (w2, Ok n) /\
        Driver.add destPath r w2 = (w3, Ok tt) /\
        Driver.commit r w3 = (w', Ok tt))).
Proof.
  unfold Driver.PutFile. intros H.
  apply bind_Ok_inv in H as (r & ? & Ho & H). apply query_inv in Ho as [-> Ho].
  apply bind_Ok_inv in H as (tree & ? & Ht & H). apply query_inv in Ht as [-> Ht].
  apply bind_Ok_inv in H as (st & ? & Hl & H).
  apply attempt_inv, query_inv in Hl as [-> Hl].
  apply bind_Ok_inv in H as (isExist & ? & He & H).
  exists r, tree. split; [exact Ho |]. split; [exact Ht |].
  destruct st as [f0 | e0].
  - destruct (os.IsDir f0) eqn:Hd; [discriminate |]. injection He as <- <-.
    destruct appendData; cbn [andb negb] in H.
    + left. run_inv.
      match goal with
      | Hs : match File_Seek ?f _ _ _ with _ => _ end = Ok _ |- _ =>
          destruct (File_Seek f 0 os.SEEK_END w) as [[moved pos] | ?] eqn:Hseek;
          [injection Hs as <- | discriminate Hs]
      end.
      repeat match goal with u : unit |- _ => destruct u end.
      repeat eexists; eassumption.
    + right. run_inv.
      repeat match goal with u : unit |- _ => destruct u end.
      do 5 eexists. split; [right; eexists; eauto |]. eauto.
  - destruct (os.IsNotExist e0) eqn:Hn; [| discriminate]. injection He as <- <-.
    right. replace (negb _) with true in H by now destruct appendData.
    run_inv.
    repeat match goal with u : unit |- _ => destruct u end.
    do 5 eexists. split; [left; eexists; eauto |]. eauto.
Qed.

(** ** The reference backend, step by step *)

Lemma lookup_node_file_ne t k c :
  Mem.lookup_node t k = Some (Mem.RegularFile c) -> k <> [].
Proof. now destruct k. Qed.

Lemma lookup_node_None_ne t k : Mem.lookup_node t k = None -> k <> [].
Proof. now destruct k. Qed.

Lemma lookup_node_ne t k : k <> [] -> Mem.lookup_node t k = t !! k.
Proof. now destruct k. Qed.

(** Staging and committing leave the work tree alone. *)
Lemma mem_add path r (w w' : Mem.world) :
  Driver.add path r w = (w', Ok tt) ->
  exists rel k,
    filepath.RelRoot path = Ok rel /\ Mem.resolve rel = Ok k /\
    Mem.root w' = Mem.root w /\ Mem.tree w' = Mem.tree w /\
    Mem.log w' = Mem.log w /\
    Mem.index w' = match Mem.lookup_node (Mem.tree w) k with
                   | Some n => <[k := n]> (Mem.index w)
                   | None => delete k (Mem.index w)
                   end.
Proof.
  unfold Driver.add. intros H. run_inv. cbn in *.
  match goal with H : Mem.Add ?rel _ = _ |- _ => exists rel; unfold Mem.Add in H end.
  destruct (Mem.resolve _) as [k |]; [| discriminate].
  exists k. match goal with H : (_, _) = (_, _) |- _ => injection H as <- _ end.
  repeat split; assumption || reflexivity.
Qed.

Lemma mem_commit r (w w' : Mem.world) :
  Driver.commit r w = (w', Ok tt) ->
  Mem.root w' = Mem.root w /\ Mem.tree w' = Mem.tree w /\
  Mem.index w' = Mem.index w /\
  exists cr, Mem.log w' = cr :: Mem.log w /\ Mem.snapshot cr = Mem.index w.
Proof.
  unfold Driver.commit. intros H. run_inv. cbn in *.
  match goal with H : Mem.Commit _ _ _ = _ |- _ =>
    unfold Mem.Commit in H; injection H as <- _ end.
  repeat split. eexists. split; reflexivity.
Qed.

(** Copying into a file opened for appending puts the bytes after its
    content. *)
Lemma mem_copy_append (f : Mem.handle) data (w w1 : Mem.world) n c :
  Mem.happend f = true ->
  Mem.lookup_node (Mem.tree w) (Mem.hkey f) = Some (Mem.RegularFile c) ->
  io_Copy f data w = (w1, Ok n) ->
  n = Z.of_nat (length (rbytes data)) /\
  Mem.root w1 = Mem.root w /\
  Mem.lookup_node (Mem.tree w1) (Mem.hkey f)
  = Some (Mem.RegularFile (c ++ rbytes data)).
Proof.
  intros Ha Hl H. pose proof (lookup_node_file_ne _ _ _ Hl) as Hk.
  unfold io_Copy in H. apply bind_Ok_inv in H as (m & w2 & Hw & H).
  destruct (rerr data); [discriminate |]. injection H as <- <-.
  destruct (rbytes data) as [| b bs] eqn:Hb.
  - injection Hw as <- <-. rewrite app_nil_r. auto.
  - cbn in Hw. unfold Mem.Write in Hw. rewrite Hl, Ha in Hw.
    injection Hw as <- <-. cbn [Mem.set_tree Mem.root Mem.tree].
    rewrite lookup_node_ne, lookup_insert_eq by assumption. auto.
Qed.

(** Copying into a file just created leaves it with the bytes copied. *)
Lemma mem_copy_fresh k data (w w1 : Mem.world) n :
  Mem.lookup_node (Mem.tree w) k = Some (Mem.RegularFile []) ->
  io_Copy {| Mem.hkey := k; Mem.hoff := 0; Mem.happend := false |} data w = (w1, Ok n) ->
  n = Z.of_nat (length (rbytes data)) /\
  Mem.root w1 = Mem.root w /\
  Mem.lookup_node (Mem.tree w1) k = Some (Mem.RegularFile (rbytes data)).
Proof.
  intros Hl H. pose proof (lookup_node_file_ne _ _ _ Hl) as Hk.
  unfold io_Copy in H. apply bind_Ok_inv in H as (m & w2 & Hw & H).
  destruct (rerr data); [discriminate |]. injection H as <- <-.
  destruct (rbytes data) as [| b bs] eqn:Hb.
  - injection Hw as <- <-. auto.
  - cbn in Hw. unfold Mem.Write in Hw. cbn [Mem.hkey Mem.happend Mem.hoff] in Hw.
    rewrite Hl in Hw. injection Hw as <- <-. cbn [Mem.set_tree Mem.root Mem.tree].
    rewrite lookup_node_ne, lookup_insert_eq by assumption.
    unfold Mem.write_at. cbn [Z.to_nat take replicate length Nat.sub app Nat.add].
    rewrite drop_nil, app_nil_r. auto.
Qed.

Lemma mem_Create path (w w1 : Mem.world) (f : Mem.handle) :
  Mem.Create path w = (w1, Ok f) ->
  exists k,
    Mem.resolve path = Ok k /\ k <> [] /\
    f = {| Mem.hkey := k; Mem.hoff := 0; Mem.happend := false |} /\
    Mem.root w1 = Mem.root w /\
    Mem.tree w1 !! k = Some (Mem.RegularFile []).
Proof.
  unfold Mem.Create. destruct (Mem.resolve path) as [k |]; [| discriminate].
  destruct (Mem.mkdirs _ _ _) as [t |]; [| discriminate].
  intros H. exists k.
  assert (Hk : k <> []).
  { intros ->. cbn in H. discriminate. }
  rewrite lookup_node_ne in H by assumption.
  destruct (t !! k) as [[c |] |]; try discriminate;
    injection H as <- <-; cbn; rewrite lookup_insert_eq; auto.
Qed.

Lemma mem_PlainOpen_root path (w w' : Mem.world) r :
  Mem.root w' = Mem.root w -> Mem.PlainOpen path w = Ok r -> Mem.PlainOpen path w' = Ok tt.
Proof.
  unfold Mem.PlainOpen. intros ->. now destruct (String.eqb _ _).
Qed.

(** Reading back a regular file from its start. *)
Lemma mem_GetFile (d : GitDriver) path k c (w : Mem.world) :
  Mem.PlainOpen (RootPath d) w = Ok tt ->
  Mem.resolve path = Ok k ->
  Mem.lookup_node (Mem.tree w) k = Some (Mem.RegularFile c) ->
  Driver.GetFile d path 0 w
  = (w, Ok (Z.of_nat (length c),
            {| Mem.hkey := k; Mem.hoff := 0; Mem.happend := false |})) /\
  Mem.ReadAll {| Mem.hkey := k; Mem.hoff := 0; Mem.happend := false |} w = Ok c.
Proof.
  intros Ho Hr Hl. split.
  - unfold Driver.GetFile, bind, query, ret. cbn.
    unfold Mem.Stat, Mem.Open. rewrite Ho, Hr, Hl. reflexivity.
  - unfold Mem.ReadAll. cbn. now rewrite Hl.
Qed.

(** ** Uploads *)

(** C4. Let [path] name a regular file with content [c].  When
    [PutFile] with [append] set succeeds on it, it returns the number of
    bytes of the stream, and [GetFile] from offset 0 then reports the size
    [len c + len data] and hands out a file that reads as [c] followed by
    the bytes of the stream. *)
Theorem append_then_read (d : GitDriver) (w : Mem.world) (path : string)
    (k : list string) (c : list Byte.byte) (data : Reader) (w' : Mem.world) (n : Z) :
  Mem.resolve path = Ok k ->
  Mem.lookup_node (Mem.tree w) k = Some (Mem.RegularFile c) ->
  Driver.PutFile d path data true w = (w', Ok n) ->
  n = Z.of_nat (length (rbytes data)) /\
  exists f : Mem.handle,
    Driver.GetFile d path 0 w'
    = (w', Ok (Z.of_nat (length c + length (rbytes data)), f)) /\
    Mem.ReadAll f w' = Ok (c ++ rbytes data).
Proof.
  intros Hr Hl H.
  apply (PutFile_Ok_inv (B := MemBackend)) in H as (r & tree & Ho & _ & [H | H]).
  - destruct H as (f0 & f & moved & pos & w1 & w2
                   & _ & _ & _ & Hof & Hseek & Hcopy & Hadd & Hcommit).
    cbn in Hof. unfold Mem.OpenFile in Hof. rewrite Hr, Hl in Hof.
    injection Hof as <-.
    cbn in Hseek. unfold Mem.Seek, Mem.size_at in Hseek.
    cbn [Mem.hkey Mem.hoff Mem.happend Z.eqb Pos.eqb os.SEEK_SET os.SEEK_END] in Hseek.
    rewrite Hl in Hseek. destruct (_ <? 0); [discriminate |].
    injection Hseek as <- _.
    apply (mem_copy_append _ _ _ _ _ c) in Hcopy as (-> & Hroot1 & Hl1);
      [| reflexivity | exact Hl].
    apply mem_add in Hadd as (_ & _ & _ & _ & Hroot2 & Htree2 & _).
    apply mem_commit in Hcommit as (Hroot3 & Htree3 & _).
    split; [reflexivity |].
    cbn [Mem.hkey] in Hl1. rewrite <- Htree2, <- Htree3 in Hl1.
    assert (Ho' : Mem.PlainOpen (RootPath d) w' = Ok tt).
    { apply (mem_PlainOpen_root _ w _ r); [congruence | exact Ho]. }
    destruct (mem_GetFile d path k _ w' Ho' Hr Hl1) as [Hg Hread].
    eexists. rewrite length_app in Hg. split; [exact Hg | exact Hread].
  - destruct H as (w0 & f & w1 & w2 & w3 & [(e0 & Hs & _) | (f0 & [=] & _)] & _).
    cbn in Hs. unfold Mem.Stat in Hs. rewrite Hr, Hl in Hs. discriminate.
Qed.

Lemma append_then_read_witness :
  2 = Z.of_nat (length (rbytes (Mem.reader "cd"))) /\
  exists f : Mem.handle,
    Driver.GetFile Mem.driver "/x" 0
      (after (Driver.PutFile Mem.driver "/x" (Mem.reader "cd") true) sample_x)
    = (after (Driver.PutFile Mem.driver "/x" (Mem.reader "cd") true) sample_x,
       Ok (Z.of_nat (length (Mem.bytes "ab") + length (rbytes (Mem.reader "cd"))), f)) /\
    Mem.ReadAll f (after (Driver.PutFile Mem.driver "/x" (Mem.reader "cd") true) sample_x)
    = Ok (Mem.bytes "ab" ++ rbytes (Mem.reader "cd")).
Proof.
  refine (append_then_read Mem.driver sample_x "/x" ["x"] (Mem.bytes "ab")
            (Mem.reader "cd") _ 2 _ _ _);
    vm_compute; reflexivity.
Defined.

(** The scenario of the design document: after [ab] and then, appended,
    [cd] are put at [/x], the file reads [abcd] and has size 4. *)
Example append_scenario :
  (Driver.GetFile Mem.driver "/x" 0
     (after (Driver.PutFile Mem.driver "/x" (Mem.reader "cd") true) sample_x)).2
  = Ok (4, {| Mem.hkey := ["x"]; Mem.hoff := 0; Mem.happend := false |}) /\
  Mem.ReadAll {| Mem.hkey := ["x"]; Mem.hoff := 0; Mem.happend := false |}
    (after (Driver.PutFile Mem.driver "/x" (Mem.reader "cd") true) sample_x)
  = Ok (Mem.bytes "abcd").
Proof. vm_compute. split; reflexivity. Qed.

(** C3. On a path the backend reports as not existing, [PutFile] with
    [append] set is [PutFile] without it: same result, same state.  On
    the reference backend a successful such call leaves a regular file
    whose content is the bytes of the stream, returns their number, and
    adds one commit. *)
Theorem append_to_missing_creates :
  (forall (B : Backend) (d : GitDriver) path data (w : World) r tree e,
     PlainOpen (RootPath d) w = Ok r ->
     Repository_Worktree r w = Ok tree ->
     Filesystem_Lstat tree path w = Err e ->
     os.IsNotExist e = true ->
     Driver.PutFile d path data true w = Driver.PutFile d path data false w) /\
  (forall (d : GitDriver) path data (w : Mem.world) k w' n,
     Mem.resolve path = Ok k ->
     Mem.lookup_node (Mem.tree w) k = None ->
     Driver.PutFile d path data true w = (w', Ok n) ->
     n = Z.of_nat (length (rbytes data)) /\
     Mem.lookup_node (Mem.tree w') k = Some (Mem.RegularFile (rbytes data)) /\
     length (Mem.log w') = S (length (Mem.log w))).
Proof.
  split.
  - intros B d path data w r tree e Ho Ht Hl Hn.
    unfold Driver.PutFile, bind, query, attempt. rewrite Ho, Ht, Hl, Hn.
    reflexivity.
  - intros d path data w k w' n Hr Hl H.
    assert (Hcount : length (Mem.log w') = S (length (Mem.log w))).
    { pose proof (one_commit_call (L := MemLaws) d (OpPutFile path data true) w) as Hc.
      cbn [call] in Hc. unfold forget in Hc.
      rewrite (bind_Ok_step _ _ _ _ _ H) in Hc. exact Hc. }
    apply (PutFile_Ok_inv (B := MemBackend)) in H as (r & tree & Ho & _ & [H | H]).
    { destruct H as (f0 & f & moved & pos & w1 & w2 & _ & Hs & _).
      cbn in Hs. unfold Mem.Stat in Hs. rewrite Hr, Hl in Hs. discriminate. }
    destruct H as (w0 & f & w1 & w2 & w3 & [(e0 & _ & _ & ->) | (f0 & _ & Hs & _)]
                   & Hc & Hcopy & Hadd & Hcommit).
    2:{ cbn in Hs. unfold Mem.Stat in Hs. rewrite Hr, Hl in Hs. discriminate. }
    cbn in Hc. apply mem_Create in Hc as (k' & Hr' & Hk & -> & Hroot1 & Hl1).
    rewrite Hr in Hr'. injection Hr' as <-.
    rewrite <- (lookup_node_ne _ _ Hk) in Hl1.
    apply mem_copy_fresh in Hcopy as (-> & Hroot2 & Hl2); [| exact Hl1].
    apply mem_add in Hadd as (_ & _ & _ & _ & _ & Htree3 & _).
    apply mem_commit in Hcommit as (_ & Htree4 & _).
    split; [reflexivity |]. split; [| exact Hcount].
    now rewrite Htree4, Htree3.
Qed.

Lemma append_to_missing_witness :
  Driver.PutFile Mem.driver "/a/g" (Mem.reader "x") true sample_file
  = Driver.PutFile Mem.driver "/a/g" (Mem.reader "x") false sample_file /\
  (1 = Z.of_nat (length (rbytes (Mem.reader "x"))) /\
   Mem.lookup_node (Mem.tree sample_two) ["a"; "g"]
   = Some (Mem.RegularFile (rbytes (Mem.reader "x"))) /\
   length (Mem.log sample_two) = S (length (Mem.log sample_file))).
Proof.
  split.
  - refine (proj1 append_to_missing_creates MemBackend Mem.driver "/a/g"
              (Mem.reader "x") sample_file tt tt Mem.not_exist _ _ _ _);
      vm_compute; reflexivity.
  - refine (proj2 append_to_missing_creates Mem.driver "/a/g" (Mem.reader "x")
              sample_file ["a"; "g"] sample_two 1 _ _ _);
      vm_compute; reflexivity.
Defined.

(** ** Staged paths name the same entries *)

(** The path [add] hands to the backend names the entry the path
    itself names. *)
Lemma resolve_RelRoot (path rel : string) (k : list string) :
  filepath.RelRoot path = Ok rel -> Mem.resolve path = Ok k -> Mem.resolve rel = Ok k.
Proof.
  destruct (filepath.rooted path) eqn:Hroot.
  2:{ rewrite (RelRoot_relative _ Hroot). discriminate. }
  unfold filepath.RelRoot, filepath.Clean, Mem.resolve at 1. rewrite Hroot.
  pose proof (clean_elems_plain (strings.Split path "/") []
                (split_from_no_sep path "" I) (Forall_nil_2 _)) as HK.
  apply Forall_rev in HK.
  destruct (rev _) as [| e K].
  { cbn. now intros [= <-] [= <-]. }
  pose proof HK as HK'. apply Forall_cons in HK' as [(He1 & _ & He3 & Hsep) HK'].
  assert (Hno : Forall no_sep (e :: K)).
  { eapply Forall_impl; [exact HK |]. now intros x (_ & _ & _ & Hx). }
  destruct (String.eqb_spec e ".."); [done |].
  destruct (String.eqb_spec (String filepath.Separator (strings.Join (e :: K) "/")) "/")
    as [E | _].
  { exfalso. injection E as E. unfold strings.Join in E.
    destruct e; [done |]. destruct K; discriminate E. }
  cbn [filepath.rooted]. rewrite Ascii.eqb_refl.
  intros [= <-] [= <-].
  change (Mem.resolve (String.concat "/" (e :: K)) = Ok (e :: K)).
  unfold Mem.resolve.
  rewrite rooted_concat by exact He1. rewrite (no_sep_not_rooted e Hsep).
  unfold strings.Split. rewrite split_concat by (exact Hno || done).
  change (("" +:+ hd "" (e :: K)) :: tl (e :: K)) with (e :: K).
  rewrite clean_elems_of_plain by exact HK.
  rewrite app_nil_r, rev_involutive.
  now destruct (String.eqb_spec e "..").
Qed.

(** ** Rename *)

(** Making directories leaves the regular files where they are. *)
Lemma mkdirs_keeps_file rest : forall t pre t' k c,
  Mem.mkdirs t pre rest = Ok t' ->
  t !! k = Some (Mem.RegularFile c) -> t' !! k = Some (Mem.RegularFile c).
Proof.
  induction rest as [| e rest IH]; intros t pre t' k c H Hk; cbn in H.
  { now injection H as <-. }
  destruct (t !! (pre ++ [e])) as [[c' |] |] eqn:Hp; [discriminate | |];
    (eapply IH; [exact H |]; rewrite lookup_insert_ne; [exact Hk | congruence]).
Qed.

(** Renaming a regular file onto a name that is free. *)
Lemma mem_Rename_file fromPath toPath kf kt c (w w1 : Mem.world) :
  Mem.resolve fromPath = Ok kf ->
  Mem.resolve toPath = Ok kt ->
  Mem.lookup_node (Mem.tree w) kf = Some (Mem.RegularFile c) ->
  Mem.lookup_node (Mem.tree w) kt = None ->
  Mem.Rename fromPath toPath w = (w1, Ok tt) ->
  Mem.root w1 = Mem.root w /\ Mem.index w1 = Mem.index w /\
  Mem.log w1 = Mem.log w /\
  Mem.lookup_node (Mem.tree w1) kf = None /\
  Mem.lookup_node (Mem.tree w1) kt = Some (Mem.RegularFile c).
Proof.
  intros Hf Ht Hlf Hlt. unfold Mem.Rename. rewrite Hf, Ht.
  pose proof (lookup_node_file_ne _ _ _ Hlf) as Hkf.
  pose proof (lookup_node_None_ne _ _ Hlt) as Hkt.
  assert (Hne : kf <> kt) by congruence.
  rewrite lookup_node_ne in Hlf by assumption.
  destruct (Mem.mkdirs _ _ _) as [t |] eqn:Hm; [| discriminate].
  pose proof (mkdirs_keeps_file _ _ _ _ _ _ Hm Hlf) as Hlf'.
  destruct kf as [| x kf]; [done |]. rewrite Hlf'.
  destruct (Mem.lookup_node t kt) as [[c' |] |]; try discriminate;
    intros [= <-]; cbn [Mem.set_tree Mem.root Mem.index Mem.log Mem.tree];
    rewrite !lookup_node_ne by assumption;
    rewrite lookup_insert_ne, lookup_delete_eq, lookup_insert_eq by congruence;
    auto.
Qed.

Lemma mem_Stat_missing (d : GitDriver) path k (w : Mem.world) :
  Mem.PlainOpen (RootPath d) w = Ok tt ->
  Mem.resolve path = Ok k ->
  Mem.lookup_node (Mem.tree w) k = None ->
  Driver.Stat d path w = (w, Err Mem.not_exist).
Proof.
  intros Ho Hr Hl. unfold Driver.Stat, bind, query. cbn.
  unfold Mem.Stat. now rewrite Ho, Hr, Hl.
Qed.

Lemma mem_Stat_found (d : GitDriver) path k n (w : Mem.world) m ow gr :
  Mem.PlainOpen (RootPath d) w = Ok tt ->
  Mem.resolve path = Ok k ->
  Mem.lookup_node (Mem.tree w) k = Some n ->
  server.GetMode (Perm d) path = Ok m ->
  server.GetOwner (Perm d) path = Ok ow ->
  server.GetGroup (Perm d) path = Ok gr ->
  Driver.Stat d path w
  = (w, Ok {| info := Mem.file_info k n;
              mode := if os.IsDir (Mem.file_info k n) then Z.lor m os.ModeDir else m;
              owner := ow; group := gr |}).
Proof.
  intros Ho Hr Hl Hm Hown Hgrp. unfold Driver.Stat, bind, query, ret. cbn.
  unfold Mem.Stat. now rewrite Ho, Hr, Hl, Hm, Hown, Hgrp.
Qed.

(** C9. Let [fromPath] name a regular file with content [c] and let
    nothing exist at [toPath], for which the permission collaborator
    answers.  A successful [Rename] has renamed in the work tree, then
    staged [fromPath], then staged [toPath], then committed: the new
    commit has no entry at the source and the file at the destination.
    Afterwards [Stat] of [fromPath] fails with a not-exist error, [Stat]
    of [toPath] reports a regular file of the size of [c], and the file
    reads as [c]. *)
Theorem rename_moves_file (d : GitDriver) (w : Mem.world) (fromPath toPath : string)
    (kf kt : list string) (c : list Byte.byte) (w' : Mem.world) m ow gr :
  Mem.resolve fromPath = Ok kf ->
  Mem.lookup_node (Mem.tree w) kf = Some (Mem.RegularFile c) ->
  Mem.resolve toPath = Ok kt ->
  Mem.lookup_node (Mem.tree w) kt = None ->
  server.GetMode (Perm d) toPath = Ok m ->
  server.GetOwner (Perm d) toPath = Ok ow ->
  server.GetGroup (Perm d) toPath = Ok gr ->
  Driver.Rename d fromPath toPath w = (w', Ok tt) ->
  (exists w1 w2 w3 : Mem.world,
     Mem.Rename fromPath toPath w = (w1, Ok tt) /\
     Driver.add fromPath tt w1 = (w2, Ok tt) /\
     Driver.add toPath tt w2 = (w3, Ok tt) /\
     Driver.commit tt w3 = (w', Ok tt)) /\
  (exists cr, Mem.log w' = cr :: Mem.log w /\
              Mem.snapshot cr !! kf = None /\
              Mem.snapshot cr !! kt = Some (Mem.RegularFile c)) /\
  (exists e, Driver.Stat d fromPath w' = (w', Err e) /\ os.IsNotExist e = true) /\
  (exists fi, Driver.Stat d toPath w' = (w', Ok fi) /\
              os.Size (info fi) = Z.of_nat (length c) /\
              os.IsDir (info fi) = false /\
              mode fi = m /\ owner fi = ow /\ group fi = gr) /\
  (exists f : Mem.handle,
     Driver.GetFile d toPath 0 w' = (w', Ok (Z.of_nat (length c), f)) /\
     Mem.ReadAll f w' = Ok c).
Proof.
  intros Hf Hlf Ht Hlt Hm Hown Hgrp H.
  apply (Rename_Ok_inv (B := MemBackend)) in H
    as ([] & [] & w1 & w2 & w3 & Ho & _ & Hren & Ha1 & Ha2 & Hc).
  pose proof (lookup_node_file_ne _ _ _ Hlf) as Hkf.
  pose proof (lookup_node_None_ne _ _ Hlt) as Hkt.
  assert (Hne : kf <> kt) by congruence.
  split; [now exists w1, w2, w3 |].
  cbn in Hren.
  apply (mem_Rename_file _ _ kf kt c) in Hren
    as (Hr1 & Hi1 & Hg1 & Hl1f & Hl1t); try assumption.
  apply mem_add in Ha1 as (rel1 & k1 & Hrel1 & Hk1 & Hr2 & Ht2 & Hg2 & Hi2).
  apply (resolve_RelRoot _ _ kf) in Hrel1; [| exact Hf].
  rewrite Hk1 in Hrel1. injection Hrel1 as ->.
  apply mem_add in Ha2 as (rel2 & k2 & Hrel2 & Hk2 & Hr3 & Ht3 & Hg3 & Hi3).
  apply (resolve_RelRoot _ _ kt) in Hrel2; [| exact Ht].
  rewrite Hk2 in Hrel2. injection Hrel2 as ->.
  apply mem_commit in Hc as (Hr4 & Ht4 & Hi4 & cr & Hg4 & Hsnap).
  rewrite Hl1f in Hi2. rewrite Ht2, Hl1t in Hi3.
  assert (Hopen : Mem.PlainOpen (RootPath d) w' = Ok tt).
  { apply (mem_PlainOpen_root _ w _ tt); [congruence | exact Ho]. }
  assert (Htree : Mem.tree w' = Mem.tree w1) by congruence.
  rewrite <- Htree in Hl1f, Hl1t.
  split; [| split; [| split]].
  - exists cr. split; [congruence |].
    rewrite Hsnap, Hi3, Hi2.
    rewrite lookup_insert_ne, lookup_delete_eq, lookup_insert_eq by congruence.
    auto.
  - exists Mem.not_exist. split; [| reflexivity].
    now apply (mem_Stat_missing d fromPath kf).
  - eexists. split.
    + now apply (mem_Stat_found d toPath kt (Mem.RegularFile c) w' m ow gr).
    + cbn. auto.
  - eexists. apply (mem_GetFile d toPath kt c w'); assumption.
Qed.

Lemma rename_moves_file_witness :
  (exists e, Driver.Stat Mem.driver "/a/f.txt" sample_renamed = (sample_renamed, Err e) /\
             os.IsNotExist e = true) /\
  (exists fi, Driver.Stat Mem.driver "/b/g" sample_renamed = (sample_renamed, Ok fi) /\
              os.Size (info fi) = Z.of_nat (length (Mem.bytes "hello")) /\
              os.IsDir (info fi) = false /\
              mode fi = os.ModePerm /\ owner fi = "user" /\ group fi = "group").
Proof.
  pose proof (rename_moves_file Mem.driver sample_file "/a/f.txt" "/b/g"
                ["a"; "f.txt"] ["b"; "g"] (Mem.bytes "hello") sample_renamed
                os.ModePerm "user" "group") as H.
  edestruct H as (_ & _ & Hfrom & Hto & _); [vm_compute; reflexivity .. |].
  split; assumption.
Defined.

(** The first scenario of the design document: in an empty repository,
    [/a] is made and [hello] is put at [/a/f.txt]; the file then has size
    5 and reads [hello], and two commits exist. *)
Example upload_scenario :
  (Driver.GetFile Mem.driver "/a/f.txt" 0 sample_file).2
  = Ok (5, {| Mem.hkey := ["a"; "f.txt"]; Mem.hoff := 0; Mem.happend := false |}) /\
  Mem.ReadAll {| Mem.hkey := ["a"; "f.txt"]; Mem.hoff := 0; Mem.happend := false |}
    sample_file = Ok (Mem.bytes "hello") /\
  length (Mem.log sample_file) = 2%nat.
Proof. vm_compute. repeat split. Qed.

(** ** The outcome of a mutating call *)

Section Steps.
Context {B : Backend}.

(** Every mutating operation has the common shape. *)
Lemma call_steps d op w : call d op w = steps d op w.
Proof.
  destruct op as [p | p | p | p q | p data a]; cbn [call];
    unfold steps, Driver.MakeDir, Driver.DeleteDir, Driver.DeleteFile,
      Driver.Rename, Driver.PutFile, forget, change, forget;
    cbn [stage staged_paths]; unfold bind, query, attempt, ret, fail;
    repeat case_match; simplify_eq; try reflexivity;
    repeat match goal with u : unit |- _ => destruct u end; reflexivity.
Qed.

Lemma call_Ok_inv d op w w' :
  call d op w = (w', Ok tt) ->
  exists r tree w1 w2,
    PlainOpen (RootPath d) w = Ok r /\
    Repository_Worktree r w = Ok tree /\
    change tree op w = (w1, Ok tt) /\
    stage r (staged_paths op) w1 = (w2, Ok tt) /\
    Driver.commit r w2 = (w', Ok tt).
Proof.
  rewrite call_steps. unfold steps. intros H. run_inv.
  repeat match goal with u : unit |- _ => destruct u end.
  repeat eexists; eassumption.
Qed.

Lemma call_change_failed d op w r tree w1 e :
  PlainOpen (RootPath d) w = Ok r ->
  Repository_Worktree r w = Ok tree ->
  change tree op w = (w1, Err e) ->
  call d op w = (w1, Err e).
Proof.
  intros Ho Ht Hc. rewrite call_steps. unfold steps, bind, query.
  rewrite Ho, Ht, Hc. reflexivity.
Qed.

Lemma call_after_change d op w r tree w1 :
  PlainOpen (RootPath d) w = Ok r ->
  Repository_Worktree r w = Ok tree ->
  change tree op w = (w1, Ok tt) ->
  call d op w = (do! stage r (staged_paths op) in Driver.commit r)%go w1.
Proof.
  intros Ho Ht Hc. rewrite call_steps. unfold steps, bind, query.
  rewrite Ho, Ht, Hc. reflexivity.
Qed.

End Steps.

(** *** On the reference backend *)

Lemma tree_only_ret {A} (a : A) : tree_only (ret a).
Proof. now intros w. Qed.

Lemma tree_only_fail {A} (e : error) : tree_only (fail (A := A) e).
Proof. now intros w. Qed.

Lemma tree_only_query {A} (f : Mem.world -> result A) : tree_only (query f).
Proof. now intros w. Qed.

Lemma tree_only_bind {A C} (m : M Mem.world A) (k : A -> M Mem.world C) :
  tree_only m -> (forall a, tree_only (k a)) -> tree_only (bind m k).
Proof.
  intros Hm Hk w. unfold bind. specialize (Hm w).
  destruct (m w) as [w1 [a|e]]; [| exact Hm].
  now rewrite (Hk a w1).
Qed.

Lemma tree_only_attempt {A} (m : M Mem.world A) : tree_only m -> tree_only (attempt m).
Proof. intros Hm w. unfold attempt. specialize (Hm w). now destruct (m w). Qed.

Lemma tree_only_forget {A} (m : M Mem.world A) : tree_only m -> tree_only (forget m).
Proof. intros Hm. apply tree_only_bind; [exact Hm | intros _; apply tree_only_ret]. Qed.

Lemma tree_only_MkdirAll p m : tree_only (Mem.MkdirAll p m).
Proof. intros w. unfold Mem.MkdirAll. repeat case_match; reflexivity. Qed.

Lemma tree_only_Create p : tree_only (Mem.Create p).
Proof. intros w. unfold Mem.Create. repeat case_match; reflexivity. Qed.

Lemma tree_only_Remove p : tree_only (Mem.Remove p).
Proof. intros w. unfold Mem.Remove. repeat case_match; reflexivity. Qed.

Lemma tree_only_Rename p q : tree_only (Mem.Rename p q).
Proof. intros w. unfold Mem.Rename. repeat case_match; reflexivity. Qed.

Lemma tree_only_Write f bs : tree_only (Mem.Write f bs).
Proof. intros w. unfold Mem.Write. repeat case_match; reflexivity. Qed.

Lemma tree_only_io_Copy (f : Mem.handle) data :
  tree_only (io_Copy (H := MemBackend) f data).
Proof.
  unfold io_Copy. apply tree_only_bind.
  - destruct (rbytes data); [apply tree_only_ret | apply tree_only_Write].
  - intros n. destruct (rerr data); [apply tree_only_fail | apply tree_only_ret].
Qed.

(** The change of a mutating operation touches nothing but the work
    tree. *)
Lemma tree_only_change op : tree_only (change (H := MemBackend) tt op).
Proof.
  destruct op as [p | p | p | p q | p data a]; cbn [change].
  - apply tree_only_MkdirAll.
  - apply tree_only_bind; [apply tree_only_query | intros f].
    destruct (negb _); [apply tree_only_fail | apply tree_only_Remove].
  - apply tree_only_bind; [apply tree_only_query | intros f].
    destruct (os.IsDir _); [apply tree_only_fail | apply tree_only_Remove].
  - apply tree_only_Rename.
  - apply tree_only_bind; [apply tree_only_attempt, tree_only_query | intros st].
    apply tree_only_bind.
    { destruct st as [f|e]; [destruct (os.IsDir f) | destruct (os.IsNotExist e)];
        first [apply tree_only_fail | apply tree_only_ret]. }
    intros isExist. destruct (negb _).
    + apply tree_only_bind.
      { destruct isExist; [apply tree_only_Remove | apply tree_only_ret]. }
      intros _. apply tree_only_bind; [apply tree_only_Create | intros f].
      apply tree_only_forget, tree_only_io_Copy.
    + do 2 (apply tree_only_bind; [apply tree_only_query | intros ?]).
      apply tree_only_forget, tree_only_io_Copy.
Qed.

(** A path that can be made relative to [/] names an entry of the work
    tree. *)
Lemma resolve_rooted (path rel : string) :
  filepath.RelRoot path = Ok rel -> exists k, Mem.resolve path = Ok k.
Proof.
  destruct (filepath.rooted path) eqn:Hroot.
  2:{ rewrite (RelRoot_relative _ Hroot). discriminate. }
  intros _. unfold Mem.resolve. rewrite Hroot.
  pose proof (clean_elems_plain (strings.Split path "/") []
                (split_from_no_sep path "" I) (Forall_nil_2 _)) as HK.
  apply Forall_rev in HK.
  destruct (rev _) as [| e K]; [eauto |].
  apply Forall_cons in HK as [(_ & _ & He & _) _].
  destruct (String.eqb_spec e ".."); [done | eauto].
Qed.

(** Staging and committing leave the work tree alone, also when they
    fail. *)
Lemma mem_add_tree p r (w : Mem.world) : Mem.tree (Driver.add p r w).1 = Mem.tree w.
Proof.
  unfold Driver.add, bind, query. cbn.
  destruct (filepath.RelRoot p) as [rel|]; [| reflexivity].
  unfold Mem.Add. destruct (Mem.resolve rel); reflexivity.
Qed.

Lemma mem_stage_tree r ps : forall w : Mem.world,
  Mem.tree (stage r ps w).1 = Mem.tree w.
Proof.
  induction ps as [| p ps IH]; intros w; [reflexivity |].
  cbn [stage]. unfold bind. pose proof (mem_add_tree p r w) as Ha.
  destruct (Driver.add p r w) as [w1 [u|e]]; [| exact Ha].
  now rewrite IH.
Qed.

Lemma mem_commit_tree r (w : Mem.world) : Mem.tree (Driver.commit r w).1 = Mem.tree w.
Proof. reflexivity. Qed.

(** What staging has done when it succeeds: the paths name entries, and
    the staging area holds at each of them what the work tree holds
    there, and elsewhere what it held. *)
Lemma mem_stage r ps : forall w1 w2 : Mem.world,
  stage r ps w1 = (w2, Ok tt) ->
  Mem.tree w2 = Mem.tree w1 /\ Mem.log w2 = Mem.log w1 /\
  exists ks,
    Forall2 (fun p k => Mem.resolve p = Ok k) ps ks /\
    forall k, Mem.index w2 !! k
              = if decide (k ∈ ks) then Mem.lookup_node (Mem.tree w1) k
                else Mem.index w1 !! k.
Proof.
  induction ps as [| p ps IH]; intros w1 w2 H.
  - injection H as <-. repeat split. exists []. split; [constructor |].
    intros k. destruct (decide (k ∈ [])) as [Hin |]; [| reflexivity].
    now apply elem_of_nil in Hin.
  - cbn [stage] in H. apply bind_Ok_inv in H as ([] & wa & Ha & H).
    apply mem_add in Ha as (rel & k & Hrel & Hk & _ & Htree & Hlog & Hidx).
    destruct (resolve_rooted _ _ Hrel) as (k0 & Hk0).
    pose proof (resolve_RelRoot _ _ _ Hrel Hk0) as Hk'.
    rewrite Hk in Hk'. injection Hk' as <-.
    apply IH in H as (Htree2 & Hlog2 & ks & Hks & Hidx2).
    split; [congruence |]. split; [congruence |].
    exists (k :: ks). split; [now constructor |].
    intros x. rewrite Hidx2, Htree.
    destruct (decide (x ∈ ks)) as [Hin | Hnin].
    + destruct (decide (x ∈ k :: ks)) as [| Hn]; [reflexivity |].
      exfalso. apply Hn. now apply list_elem_of_further.
    + destruct (decide (x = k)) as [-> | Hne].
      * destruct (decide (k ∈ k :: ks)) as [| Hn];
          [| exfalso; apply Hn; apply list_elem_of_here].
        rewrite Hidx. destruct (Mem.lookup_node (Mem.tree w1) k).
        -- now rewrite lookup_insert_eq.
        -- now rewrite lookup_delete_eq.
      * destruct (decide (x ∈ k :: ks)) as [Hin |].
        { apply elem_of_cons in Hin as [-> | Hin]; done. }
        rewrite Hidx. destruct (Mem.lookup_node (Mem.tree w1) k).
        -- now rewrite lookup_insert_ne.
        -- now rewrite lookup_delete_ne.
Qed.

(** C1, as the code has it.  A mutating call opens the repository and
    the work tree, makes its change in the backend, stages its paths and
    commits, each step from the state the step before it left, and the
    first step that fails ends the call with that step's error and the
    state that step left: nothing is undone.

    For every backend in which only the commit adds to the log: a call
    that succeeds has made its change, staged its paths and committed, in
    this order, and the log is one commit longer; a call that fails adds
    no commit; a call that is turned down before the backend is asked to
    change anything leaves the state as it was; a change that fails
    leaves the state it reached; and once the change is made the call is
    the staging and the commit run from the changed state.

    On the reference backend: after a call that succeeds the commit on
    top of the former log is the driver's commit over the staging area,
    which holds at each path the operation staged what the work tree
    holds there, and at every other path what it held before the call;
    after a call that fails in the staging or in the commit the work tree
    is as the change left it. *)
Theorem mutation_outcome (d : GitDriver) (op : mutation) :
  (forall (B : Backend) (L : BackendLaws B) (w : World),
     (forall w', call d op w = (w', Ok tt) ->
        CommitCount w' = S (CommitCount w) /\
        exists r tree w1 w2,
          PlainOpen (RootPath d) w = Ok r /\
          Repository_Worktree r w = Ok tree /\
          change tree op w = (w1, Ok tt) /\
          stage r (staged_paths op) w1 = (w2, Ok tt) /\
          Driver.commit r w2 = (w', Ok tt)) /\
     (forall w' e, call d op w = (w', Err e) -> CommitCount w' = CommitCount w) /\
     (forall e, refused d op w = Some e -> call d op w = (w, Err e)) /\
     (forall r tree w1,
        PlainOpen (RootPath d) w = Ok r ->
        Repository_Worktree r w = Ok tree ->
        (forall e, change tree op w = (w1, Err e) -> call d op w = (w1, Err e)) /\
        (change tree op w = (w1, Ok tt) ->
         call d op w = (do! stage r (staged_paths op) in Driver.commit r)%go w1))) /\
  (forall w : Mem.world,
     (forall w', call d op w = (w', Ok tt) ->
        Mem.log w' = stamp (Mem.clock w') (Mem.index w') :: Mem.log w /\
        (forall p, p ∈ staged_paths op ->
           exists k, Mem.resolve p = Ok k /\
                     Mem.index w' !! k = Mem.lookup_node (Mem.tree w') k) /\
        (forall k, (forall p, p ∈ staged_paths op -> Mem.resolve p <> Ok k) ->
           Mem.index w' !! k = Mem.index w !! k)) /\
     (forall r w1 w' e,
        PlainOpen (RootPath d) w = Ok r ->
        change (H := MemBackend) tt op w = (w1, Ok tt) ->
        call d op w = (w', Err e) ->
        Mem.tree w' = Mem.tree w1)).
Proof.
  split.
  - intros B L w. pose proof (one_commit_call d op w) as Hc.
    split; [| split; [| split]].
    + intros w' H. split; [now rewrite H in Hc | exact (call_Ok_inv d op w w' H)].
    + intros w' e H. now rewrite H in Hc.
    + intros e. apply refused_call.
    + intros r tree w1 Ho Ht. split.
      * intros e. exact (call_change_failed d op w r tree w1 e Ho Ht).
      * exact (call_after_change d op w r tree w1 Ho Ht).
  - intros w. split.
    + intros w' H.
      apply (call_Ok_inv (B := MemBackend)) in H
        as (r & [] & w1 & w2 & _ & _ & Hch & Hst & Hco).
      pose proof (tree_only_change op w) as Hb. rewrite Hch in Hb.
      injection Hb as _ Hidx1 Hlog1 _.
      apply mem_stage in Hst as (Htree2 & Hlog2 & ks & Hks & Hidx2).
      unfold Driver.commit, bind, query, ret in Hco. cbn in Hco.
      injection Hco as <-. cbn [Mem.log Mem.index Mem.tree Mem.clock].
      split; [unfold stamp; congruence |]. split.
      * intros p Hp. apply list_elem_of_lookup in Hp as (i & Hi).
        destruct (Forall2_lookup_l _ _ _ _ _ Hks Hi) as (k & Hki & Hk).
        exists k. split; [exact Hk |].
        rewrite Hidx2, Htree2.
        destruct (decide (k ∈ ks)) as [| Hn]; [reflexivity |].
        exfalso. apply Hn. apply list_elem_of_lookup. eauto.
      * intros k Hk. rewrite Hidx2, Hidx1.
        destruct (decide (k ∈ ks)) as [Hin |]; [| reflexivity].
        exfalso. apply list_elem_of_lookup in Hin as (i & Hi).
        destruct (Forall2_lookup_r _ _ _ _ _ Hks Hi) as (p & Hpi & Hp).
        apply (Hk p); [| exact Hp]. apply list_elem_of_lookup. eauto.
    + intros r w1 w' e Ho Hch H.
      rewrite (call_after_change (B := MemBackend) d op w r tt w1 Ho eq_refl Hch) in H.
      unfold bind in H.
      pose proof (mem_stage_tree r (staged_paths op) w1) as Hs.
      destruct (stage r (staged_paths op) w1) as [w2 [u|e2]].
      * pose proof (mem_commit_tree r w2) as Hc. rewrite H in Hc.
        cbn [fst] in *. congruence.
      * injection H as <- _. exact Hs.
Qed.

Lemma mutation_outcome_witness :
  (CommitCount sample_file = S (CommitCount sample_dir) /\
   exists r tree w1 w2,
     PlainOpen (RootPath Mem.driver) sample_dir = Ok r /\
     Repository_Worktree r sample_dir = Ok tree /\
     change tree (OpPutFile "/a/f.txt" (Mem.reader "hello") false) sample_dir
       = (w1, Ok tt) /\
     stage r ["/a/f.txt"] w1 = (w2, Ok tt) /\
     Driver.commit r w2 = (sample_file, Ok tt)) /\
  (Mem.log sample_file
     = stamp (Mem.clock sample_file) (Mem.index sample_file) :: Mem.log sample_dir /\
   (forall p, p ∈ ["/a/f.txt"] ->
      exists k, Mem.resolve p = Ok k /\
                Mem.index sample_file !! k = Mem.lookup_node (Mem.tree sample_file) k) /\
   (forall k, (forall p, p ∈ ["/a/f.txt"] -> Mem.resolve p <> Ok k) ->
      Mem.index sample_file !! k = Mem.index sample_dir !! k)) /\
  CommitCount sample_broken = CommitCount sample_file /\
  call Mem.driver (OpDeleteFile "/a") sample_file
    = (sample_file, Err (errors.New "Not a file")) /\
  call Mem.driver (OpPutFile "/a/f.txt" broken_upload false) sample_file
    = (sample_broken, Err (errors.New "connection reset by peer")) /\
  call Mem.driver (OpMakeDir "b") sample_file
    = (do! stage tt ["b"] in Driver.commit tt)%go sample_changed /\
  Mem.tree sample_unstaged = Mem.tree sample_changed.
Proof.
  destruct (mutation_outcome Mem.driver (OpPutFile "/a/f.txt" (Mem.reader "hello") false))
    as [Gput Mput].
  destruct (Gput MemBackend MemLaws sample_dir) as (Hok & _).
  destruct (Mput sample_dir) as (Hcommitted & _).
  destruct (mutation_outcome Mem.driver (OpPutFile "/a/f.txt" broken_upload false))
    as [Gbroken _].
  destruct (Gbroken MemBackend MemLaws sample_file) as (_ & Hcount & _ & Hchange).
  destruct (Hchange tt tt sample_broken eq_refl eq_refl) as (Hfailed & _).
  destruct (mutation_outcome Mem.driver (OpDeleteFile "/a")) as [Gdelete _].
  destruct (Gdelete MemBackend MemLaws sample_file) as (_ & _ & Hrefused & _).
  destruct (mutation_outcome Mem.driver (OpMakeDir "b")) as [Gmkdir Mmkdir].
  destruct (Gmkdir MemBackend MemLaws sample_file) as (_ & _ & _ & Hchange').
  destruct (Hchange' tt tt sample_changed eq_refl eq_refl) as (_ & Hafter).
  destruct (Mmkdir sample_file) as (_ & Hkept).
  split; [apply Hok; vm_compute; reflexivity |].
  split; [apply Hcommitted; vm_compute; reflexivity |].
  split.
  { apply (Hcount sample_broken (errors.New "connection reset by peer")).
    vm_compute. reflexivity. }
  split; [apply Hrefused; vm_compute; reflexivity |].
  split.
  { apply (Hfailed (errors.New "connection reset by peer")). vm_compute. reflexivity. }
  split; [apply Hafter; vm_compute; reflexivity |].
  apply (Hkept tt sample_changed sample_unstaged
           (errors.New "Rel: can't make b relative to /"));
    vm_compute; reflexivity.
Defined.

(** C1, as the claim has it, fails in both halves.  In [sample_file]
    the work tree is what the newest commit holds.  An upload to
    [/a/f.txt] that breaks off after two bytes makes [PutFile] fail, and
    the file that held [hello] holds [ab] afterwards: the failed call has
    changed the work tree.  The upload of [/x] that follows succeeds and
    commits, and its commit holds [hello] at [/a/f.txt] where the work
    tree holds [ab]: the successful call has not left the work tree in a
    committed state. *)
Lemma failed_upload_left_uncommitted :
  option_map Mem.snapshot (head (Mem.log sample_file)) = Some (Mem.tree sample_file) /\
  Mem.tree sample_file !! ["a"; "f.txt"] = Some (Mem.RegularFile (Mem.bytes "hello")) /\
  call Mem.driver (OpPutFile "/a/f.txt" broken_upload false) sample_file
    = (sample_broken, Err (errors.New "connection reset by peer")) /\
  Mem.tree sample_broken !! ["a"; "f.txt"] = Some (Mem.RegularFile (Mem.bytes "ab")) /\
  call Mem.driver (OpPutFile "/x" (Mem.reader "ab") false) sample_broken
    = (sample_later, Ok tt) /\
  length (Mem.log sample_later) = S (length (Mem.log sample_broken)) /\
  Mem.tree sample_later !! ["a"; "f.txt"] = Some (Mem.RegularFile (Mem.bytes "ab")) /\
  option_map (fun cr => Mem.snapshot cr !! ["a"; "f.txt"]) (head (Mem.log sample_later))
    = Some (Some (Mem.RegularFile (Mem.bytes "hello"))).
Proof. vm_compute. repeat split. Qed.

(** * Further properties of the driver *)

(** ** Reading a file *)

(** X1. [GetFile] fails only when the repository, the work tree, the stat or
    the open fails: the result of its seek is discarded, so once the file
    is open the call succeeds, with the size the stat reported, whatever
    the offset; the handle is the moved one if the seek succeeded and the
    freshly opened one otherwise. *)
Theorem GetFile_seek_unchecked {B : Backend} (d : GitDriver) (path : string)
    (offset : Z) (w : World) r tree inf f :
  PlainOpen (RootPath d) w = Ok r ->
  Repository_Worktree r w = Ok tree ->
  Filesystem_Stat tree path w = Ok inf ->
  Filesystem_Open tree path w = Ok f ->
  (forall moved pos, File_Seek f offset os.SEEK_SET w = Ok (moved, pos) ->
     Driver.GetFile d path offset w = (w, Ok (os.Size inf, moved))) /\
  (forall e, File_Seek f offset os.SEEK_SET w = Err e ->
     Driver.GetFile d path offset w = (w, Ok (os.Size inf, f))).
Proof.
  intros Ho Ht Hs Hf.
  split; [intros moved pos Hk | intros e Hk];
    unfold Driver.GetFile, bind, query, ret; now rewrite Ho, Ht, Hs, Hf, Hk.
Qed.

Lemma GetFile_seek_unchecked_witness :
  Driver.GetFile Mem.driver "/a/f.txt" (-3) sample_file
  = (sample_file,
     Ok (os.Size (Mem.file_info ["a"; "f.txt"] (Mem.RegularFile (Mem.bytes "hello"))),
         {| Mem.hkey := ["a"; "f.txt"]; Mem.hoff := 0; Mem.happend := false |})).
Proof.
  refine (proj2 (GetFile_seek_unchecked Mem.driver "/a/f.txt" (-3) sample_file tt tt
                   (Mem.file_info ["a"; "f.txt"] (Mem.RegularFile (Mem.bytes "hello")))
                   {| Mem.hkey := ["a"; "f.txt"]; Mem.hoff := 0; Mem.happend := false |}
                   _ _ _ _)
                (errors.New "negative position") _);
    vm_compute; reflexivity.
Defined.

(** X2. On the reference backend: for a regular file with content [c],
    [GetFile] reports the size of the whole file whatever the offset; from
    an offset that is not negative the file handed out reads as [c]
    without its first [offset] bytes (nothing, past the end), and from a
    negative offset, whose seek fails unnoticed, as the whole of [c]. *)
Theorem GetFile_from_offset (d : GitDriver) (w : Mem.world) (path : string)
    (k : list string) (c : list Byte.byte) (offset : Z) :
  Mem.PlainOpen (RootPath d) w = Ok tt ->
  Mem.resolve path = Ok k ->
  Mem.lookup_node (Mem.tree w) k = Some (Mem.RegularFile c) ->
  exists f : Mem.handle,
    Driver.GetFile d path offset w = (w, Ok (Z.of_nat (length c), f)) /\
    Mem.ReadAll f w = Ok (if offset <? 0 then c else drop (Z.to_nat offset) c).
Proof.
  intros Ho Hr Hl.
  unfold Driver.GetFile, bind, query, ret. cbn.
  unfold Mem.Stat, Mem.Open, Mem.Seek. rewrite Ho, Hr, Hl. cbn.
  rewrite !Z.add_0_l.
  destruct (offset <? 0) eqn:Hneg; eexists; (split; [reflexivity |]);
    unfold Mem.ReadAll; cbn; now rewrite Hl.
Qed.

Lemma GetFile_from_offset_witness :
  exists f : Mem.handle,
    Driver.GetFile Mem.driver "/a/f.txt" 2 sample_file
    = (sample_file, Ok (Z.of_nat (length (Mem.bytes "hello")), f)) /\
    Mem.ReadAll f sample_file = Ok (drop (Z.to_nat 2) (Mem.bytes "hello")).
Proof.
  refine (GetFile_from_offset Mem.driver sample_file "/a/f.txt" ["a"; "f.txt"]
            (Mem.bytes "hello") 2 _ _ _);
    vm_compute; reflexivity.
Defined.

(** ** Uploads that cannot go through *)

(** X3. [PutFile] on a path whose entry is a directory fails with [A dir has
    the same name]; when the existence check fails with an error that is
    not a not-exist error, [PutFile] fails with a new error whose text is
    [Put File error:], the text of that error and a newline, and which is
    itself no not-exist error.  Either way, with or without [append], the
    state is left as it was. *)
Theorem PutFile_refused {B : Backend} (d : GitDriver) (path : string) (data : Reader)
    (appendData : bool) (w : World) r tree :
  PlainOpen (RootPath d) w = Ok r ->
  Repository_Worktree r w = Ok tree ->
  (forall f, Filesystem_Lstat tree path w = Ok f -> os.IsDir f = true ->
     Driver.PutFile d path data appendData w
     = (w, Err (errors.New "A dir has the same name"))) /\
  (forall e, Filesystem_Lstat tree path w = Err e -> os.IsNotExist e = false ->
     exists e',
       Driver.PutFile d path data appendData w = (w, Err e') /\
       Error e' = "Put File error: " +:+ Error e +:+ String (ascii_of_nat 10) "" /\
       os.IsNotExist e' = false).
Proof.
  intros Ho Ht. split.
  - intros f Hl Hd. unfold Driver.PutFile, bind, query, attempt.
    now rewrite Ho, Ht, Hl, Hd.
  - intros e Hl Hn. eexists. split; [| split].
    + unfold Driver.PutFile, bind, query, attempt. rewrite Ho, Ht, Hl, Hn.
      reflexivity.
    + reflexivity.
    + reflexivity.
Qed.

Lemma PutFile_refused_witness :
  Driver.PutFile Mem.driver "/a" (Mem.reader "x") true sample_file
  = (sample_file, Err (errors.New "A dir has the same name")).
Proof.
  refine (proj1 (PutFile_refused Mem.driver "/a" (Mem.reader "x") true sample_file
                   tt tt _ _) (Mem.file_info ["a"] Mem.Directory) _ _);
    vm_compute; reflexivity.
Defined.




(** ** The permission collaborator is not consulted *)

(** X5. No mutating operation, and neither [ChangeDir] nor [GetFile], asks the
    permission collaborator anything: two drivers on the same root give
    the same result and the same state, whatever their collaborators. *)
Theorem perm_not_consulted {B : Backend} (d1 d2 : GitDriver) (w : World) :
  RootPath d1 = RootPath d2 ->
  (forall path, Driver.MakeDir d1 path w = Driver.MakeDir d2 path w) /\
  (forall path, Driver.DeleteDir d1 path w = Driver.DeleteDir d2 path w) /\
  (forall path, Driver.DeleteFile d1 path w = Driver.DeleteFile d2 path w) /\
  (forall fromPath toPath,
     Driver.Rename d1 fromPath toPath w = Driver.Rename d2 fromPath toPath w) /\
  (forall path data appendData,
     Driver.PutFile d1 path data appendData w = Driver.PutFile d2 path data appendData w) /\
  (forall path, Driver.ChangeDir d1 path w = Driver.ChangeDir d2 path w) /\
  (forall path offset, Driver.GetFile d1 path offset w = Driver.GetFile d2 path offset w).
Proof.
  destruct d1 as [root1 perm1], d2 as [root2 perm2]. cbn [RootPath].
  intros ->. repeat split.
Qed.

Lemma perm_not_consulted_witness :
  Driver.PutFile Mem.driver "/a/g" (Mem.reader "x") true sample_file
  = Driver.PutFile echo_driver "/a/g" (Mem.reader "x") true sample_file.
Proof.
  destruct (perm_not_consulted (B := MemBackend) Mem.driver echo_driver sample_file eq_refl)
    as (_ & _ & _ & _ & H & _).
  apply H.
Defined.

(** ** Path translation *)

Lemma split_from_nonempty (s cur : string) : strings.split_from "/" 0 cur s <> [].
Proof.
  revert cur. induction s as [| c s IH]; intros cur; [done |].
  destruct (ascii_dec c "/") as [-> | Hc].
  - now rewrite split_from_sep.
  - rewrite split_from_other by exact Hc. apply IH.
Qed.

(** Joining what was split gives the string back. *)
Lemma concat_split_from (s cur : string) :
  String.concat "/" (strings.split_from "/" 0 cur s) = cur +:+ s.
Proof.
  revert cur. induction s as [| c s IH]; intros cur.
  { cbn. now rewrite append_nil_r. }
  destruct (ascii_dec c "/") as [-> | Hc].
  - rewrite split_from_sep. specialize (IH "").
    destruct (strings.split_from "/" 0 "" s) as [| y l] eqn:E.
    { now apply split_from_nonempty in E. }
    change (String.concat "/" (cur :: y :: l))
      with (cur +:+ "/" +:+ String.concat "/" (y :: l)).
    now rewrite IH.
  - rewrite split_from_other by exact Hc. rewrite IH. now rewrite append_assoc.
Qed.

(** X6. [realPath] is the cleaned concatenation of the root, a separator and
    the path, whatever the path holds: [..] elements in it are resolved
    against the root like any others.  The result is rooted exactly when
    the root is. *)
Theorem realPath_clean (d : GitDriver) (path : string) :
  RootPath d <> "" ->
  Driver.realPath d path = filepath.Clean (RootPath d +:+ "/" +:+ path) /\
  filepath.rooted (Driver.realPath d path) = filepath.rooted (RootPath d).
Proof.
  intros Hroot.
  assert (E : Driver.realPath d path = filepath.Clean (RootPath d +:+ "/" +:+ path)).
  { unfold Driver.realPath. cbn [filepath.Join].
    destruct (String.eqb_spec (RootPath d) ""); [done |].
    unfold strings.Join, strings.Split.
    pose proof (concat_split_from path "") as Hc.
    destruct (strings.split_from "/" 0 "" path) as [| y l] eqn:Es.
    { now apply split_from_nonempty in Es. }
    change (String.concat "/" (RootPath d :: y :: l))
      with (RootPath d +:+ "/" +:+ String.concat "/" (y :: l)).
    now rewrite Hc. }
  split; [exact E |].
  rewrite E, Clean_rooted. now apply rooted_append.
Qed.

Lemma realPath_clean_witness :
  Driver.realPath Mem.driver "/a/../../etc"
  = filepath.Clean (RootPath Mem.driver +:+ "/" +:+ "/a/../../etc") /\
  filepath.rooted (Driver.realPath Mem.driver "/a/../../etc")
  = filepath.rooted (RootPath Mem.driver).
Proof. apply realPath_clean. discriminate. Defined.

(** A path with [..] elements leaves the root: [realPath] does not keep
    its result below [RootPath]. *)
Example realPath_escapes :
  Driver.realPath Mem.driver "/a/../../etc" = "/srv/etc".
Proof. vm_compute. reflexivity. Qed.

(** X7. For a path that begins with the separator, the staging step hands the
    backend a relative path, and it is the only thing [add] does besides
    opening the work tree; on the reference backend that path names the
    entry the path itself names. *)
Theorem add_path_rooted (path : string) :
  filepath.rooted path = true ->
  exists rel,
    filepath.RelRoot path = Ok rel /\
    filepath.rooted rel = false /\
    (forall k, Mem.resolve path = Ok k -> Mem.resolve rel = Ok k) /\
    (forall (B : Backend) r tree (w : World),
       Repository_Worktree r w = Ok tree ->
       Driver.add path r w = forget (Worktree_Add tree rel) w).
Proof.
  intros Hroot.
  assert (Hrel : exists rel, filepath.RelRoot path = Ok rel /\ filepath.rooted rel = false).
  { unfold filepath.RelRoot, filepath.Clean. rewrite Hroot.
    pose proof (clean_elems_plain (strings.Split path "/") []
                  (split_from_no_sep path "" I) (Forall_nil_2 _)) as HK.
    apply Forall_rev in HK.
    destruct (rev _) as [| e K].
    { cbn. eauto. }
    apply Forall_cons in HK as [(He1 & _ & _ & Hsep) _].
    destruct (String.eqb_spec (String filepath.Separator (strings.Join (e :: K) "/")) "/")
      as [E | _].
    { exists ".". auto. }
    cbn [filepath.rooted]. rewrite Ascii.eqb_refl.
    eexists. split; [reflexivity |].
    unfold strings.Join. rewrite rooted_concat by exact He1.
    now apply no_sep_not_rooted. }
  destruct Hrel as (rel & Hrel & Hnr). exists rel.
  split; [exact Hrel |]. split; [exact Hnr |]. split.
  - intros k. now apply resolve_RelRoot.
  - intros B r tree w Ht. unfold Driver.add, forget, bind, query.
    now rewrite Ht, Hrel.
Qed.

Lemma add_path_rooted_witness :
  exists rel,
    filepath.RelRoot "/a//b/./c/" = Ok rel /\
    filepath.rooted rel = false /\
    (forall k, Mem.resolve "/a//b/./c/" = Ok k -> Mem.resolve rel = Ok k) /\
    (forall (B : Backend) r tree (w : World),
       Repository_Worktree r w = Ok tree ->
       Driver.add "/a//b/./c/" r w = forget (Worktree_Add tree rel) w).
Proof. apply add_path_rooted. reflexivity. Defined.

Example add_path_example : filepath.RelRoot "/a//b/./c/" = Ok "a/b/c".
Proof. reflexivity. Qed.

(** ** The paths [ListDir] looks its children up at *)

Lemma clean_elems_nodots (isroot : bool) (L kept : list string) :
  Forall (fun e => e <> "..") L ->
  filepath.clean_elems isroot kept L = rev (List.filter named L) ++ kept.
Proof.
  revert kept. induction L as [| e L IH]; intros kept HL; [reflexivity |].
  apply Forall_cons in HL as [He HL]. cbn. unfold named.
  destruct (String.eqb_spec e ""); [now apply IH |].
  destruct (String.eqb_spec e "."); [now apply IH |].
  destruct (String.eqb_spec e ".."); [done |].
  cbn. rewrite IH by exact HL. now rewrite <- app_assoc.
Qed.

Lemma filter_named_plain (L : list string) :
  Forall no_sep L -> Forall (fun e => e <> "..") L ->
  Forall plain (List.filter named L).
Proof.
  induction L as [| e L IH]; intros Hs Hd; [constructor |].
  apply Forall_cons in Hs as [Hs1 Hs]. apply Forall_cons in Hd as [Hd1 Hd].
  cbn. unfold named at 1.
  destruct (String.eqb_spec e ""); [now apply IH |].
  destruct (String.eqb_spec e "."); [now apply IH |].
  cbn. constructor; [now repeat split | now apply IH].
Qed.

(** A joined list of plain elements resolves to these elements. *)
Lemma resolve_concat_plain (K : list string) :
  Forall plain K -> K <> [] -> Mem.resolve (String.concat "/" K) = Ok K.
Proof.
  intros HK Hne. destruct K as [| e K]; [done |].
  pose proof HK as HK'. apply Forall_cons in HK' as [(He1 & _ & He3 & Hsep) _].
  assert (Hno : Forall no_sep (e :: K)).
  { eapply Forall_impl; [exact HK |]. now intros x (_ & _ & _ & Hx). }
  unfold Mem.resolve.
  rewrite rooted_concat by exact He1. rewrite (no_sep_not_rooted e Hsep).
  unfold strings.Split. rewrite split_concat by (exact Hno || done).
  change (("" +:+ hd "" (e :: K)) :: tl (e :: K)) with (e :: K).
  rewrite clean_elems_of_plain by exact HK.
  rewrite app_nil_r, rev_involutive.
  now destruct (String.eqb_spec e "..").
Qed.

Lemma Join_not_rooted (L : list string) :
  Forall no_sep L -> filepath.rooted (filepath.Join L) = false.
Proof.
  induction L as [| e L IH]; intros HL; [reflexivity |].
  apply Forall_cons in HL as [He HL]. cbn [filepath.Join].
  destruct (String.eqb_spec e ""); [now apply IH |].
  rewrite Clean_rooted. unfold strings.Join.
  rewrite rooted_concat by assumption. now apply no_sep_not_rooted.
Qed.

Lemma Join_nodots (L : list string) :
  Forall no_sep L -> Forall (fun e => e <> "..") L ->
  List.filter named L <> [] ->
  filepath.Join L = String.concat "/" (List.filter named L).
Proof.
  induction L as [| e L IH]; intros Hs Hd Hne; [done |].
  pose proof Hs as Hs'. pose proof Hd as Hd'.
  apply Forall_cons in Hs' as [Hs1 Hs']. apply Forall_cons in Hd' as [Hd1 Hd'].
  cbn [filepath.Join].
  destruct (String.eqb_spec e "") as [-> | He].
  { change (List.filter named ("" :: L)) with (List.filter named L) in *.
    exact (IH Hs' Hd' Hne). }
  unfold filepath.Clean, strings.Join.
  rewrite rooted_concat by exact He. rewrite (no_sep_not_rooted e Hs1).
  unfold strings.Split. rewrite split_concat by (exact Hs || done).
  change (("" +:+ hd "" (e :: L)) :: tl (e :: L)) with (e :: L).
  rewrite clean_elems_nodots by exact Hd.
  rewrite app_nil_r, rev_involutive.
  now destruct (List.filter named (e :: L)).
Qed.

(** X8. [ListDir] looks a child up at the path joined from the elements of
    the listed path and the child's name.  That path never begins with
    the separator, also when the listed path does; and on the reference
    backend, for a listed path without [..] elements and a plain name, it
    names the entry of that name directly below the listed directory. *)
Theorem ListDir_child_path (path name : string) :
  no_sep name ->
  filepath.rooted (filepath.Join (strings.Split path "/" ++ [name])) = false /\
  (forall k,
     Forall (fun e => e <> "..") (strings.Split path "/") ->
     plain name ->
     Mem.resolve path = Ok k ->
     Mem.resolve (filepath.Join (strings.Split path "/" ++ [name])) = Ok (k ++ [name])).
Proof.
  intros Hname.
  assert (Hsep : Forall no_sep (strings.Split path "/" ++ [name])).
  { apply Forall_app. split; [apply (split_from_no_sep path "" I) | now constructor]. }
  split; [now apply Join_not_rooted |].
  intros k Hd (Hn1 & Hn2 & Hn3 & _) Hr.
  assert (Hk : k = List.filter named (strings.Split path "/")).
  { unfold Mem.resolve in Hr. rewrite clean_elems_nodots in Hr by exact Hd.
    rewrite app_nil_r, rev_involutive in Hr.
    destruct (List.filter named _) as [| e K]; [now injection Hr as <- |].
    destruct (String.eqb e ".."); [discriminate | now injection Hr as <-]. }
  assert (Hd' : Forall (fun e => e <> "..") (strings.Split path "/" ++ [name])).
  { apply Forall_app. split; [exact Hd | now constructor]. }
  assert (Hf : List.filter named (strings.Split path "/" ++ [name]) = k ++ [name]).
  { rewrite List.filter_app, <- Hk. cbn. unfold named.
    destruct (String.eqb_spec name ""); [done |].
    now destruct (String.eqb_spec name "."). }
  rewrite Join_nodots; [| exact Hsep | exact Hd' | rewrite Hf; now destruct k].
  rewrite Hf. apply resolve_concat_plain; [| now destruct k].
  rewrite <- Hf. now apply filter_named_plain.
Qed.

Lemma ListDir_child_path_witness :
  filepath.rooted (filepath.Join (strings.Split "/a" "/" ++ ["f.txt"])) = false /\
  Mem.resolve (filepath.Join (strings.Split "/a" "/" ++ ["f.txt"])) = Ok (["a"] ++ ["f.txt"]).
Proof.
  destruct (ListDir_child_path "/a" "f.txt") as [H1 H2].
  { cbn. repeat split; discriminate. }
  split; [exact H1 |]. apply H2.
  - vm_compute. repeat constructor; discriminate.
  - cbn. repeat split; discriminate.
  - reflexivity.
Defined.

(** With a [..] element the two part ways: [/..] names the root, whose
    children are then looked up outside it. *)
Example ListDir_child_path_dots :
  Mem.resolve "/.." = Ok [] /\
  filepath.Join (strings.Split "/.." "/" ++ ["f.txt"]) = "../f.txt" /\
  Mem.resolve "../f.txt" = Err (errors.New "chroot boundary crossed").
Proof. vm_compute. repeat split. Qed.

(** ** More of the reference backend, step by step *)

Lemma mkdirs_keeps rest : forall t pre t' k n,
  Mem.mkdirs t pre rest = Ok t' -> t !! k = Some n -> t' !! k = Some n.
Proof.
  induction rest as [| e rest IH]; intros t pre t' k n H Hk; cbn in H.
  { now injection H as <-. }
  destruct (decide (pre ++ [e] = k)) as [<- | Hne].
  - rewrite Hk in H. destruct n; [discriminate |].
    eapply IH; [exact H |]. apply lookup_insert_eq.
  - assert (Hi : <[pre ++ [e] := Mem.Directory]> t !! k = Some n)
      by now rewrite lookup_insert_ne.
    destruct (t !! (pre ++ [e])) as [[c |] |]; [discriminate | |];
      exact (IH _ _ _ _ _ H Hi).
Qed.

(** What [mkdirs] returns has a directory at every path it was to make. *)
Lemma mkdirs_dirs rest : forall t pre t' i,
  Mem.mkdirs t pre rest = Ok t' ->
  (0 < i <= length rest)%nat ->
  t' !! (pre ++ take i rest) = Some Mem.Directory.
Proof.
  induction rest as [| e rest IH]; intros t pre t' i H Hi; cbn in Hi; [lia |].
  cbn in H.
  assert (H' : Mem.mkdirs (<[pre ++ [e] := Mem.Directory]> t) (pre ++ [e]) rest = Ok t').
  { now destruct (t !! (pre ++ [e])) as [[c |] |]. }
  destruct i as [| i]; [lia |]. cbn [take].
  replace (pre ++ e :: take i rest) with ((pre ++ [e]) ++ take i rest)
    by now rewrite <- app_assoc.
  destruct i as [| i].
  - rewrite take_0, app_nil_r.
    eapply mkdirs_keeps; [exact H' |]. apply lookup_insert_eq.
  - eapply IH; [exact H' | lia].
Qed.

(** Where the directories exist already, [mkdirs] changes nothing. *)
Lemma mkdirs_id rest : forall t pre,
  (forall i, (0 < i <= length rest)%nat ->
     t !! (pre ++ take i rest) = Some Mem.Directory) ->
  Mem.mkdirs t pre rest = Ok t.
Proof.
  induction rest as [| e rest IH]; intros t pre Hd; [reflexivity |]. cbn.
  assert (He : t !! (pre ++ [e]) = Some Mem.Directory).
  { apply (Hd 1%nat). cbn. lia. }
  rewrite He, insert_id by exact He. apply IH.
  intros i Hi. rewrite <- app_assoc. apply (Hd (S i)). cbn. lia.
Qed.

Lemma removelast_take {A} (l : list A) : removelast l = take (length l - 1) l.
Proof.
  induction l as [| x l IH]; [reflexivity |].
  destruct l as [| y l]; [reflexivity |].
  change (removelast (x :: y :: l)) with (x :: removelast (y :: l)).
  rewrite IH. cbn. now rewrite Nat.sub_0_r.
Qed.

Lemma mem_Create_tree path k (w w1 : Mem.world) (f : Mem.handle) :
  Mem.resolve path = Ok k ->
  Mem.Create path w = (w1, Ok f) ->
  k <> [] /\
  f = {| Mem.hkey := k; Mem.hoff := 0; Mem.happend := false |} /\
  Mem.root w1 = Mem.root w /\
  exists t, Mem.mkdirs (Mem.tree w) [] (removelast k) = Ok t /\
            Mem.tree w1 = <[k := Mem.RegularFile []]> t.
Proof.
  intros Hr. unfold Mem.Create. rewrite Hr.
  destruct (Mem.mkdirs _ _ _) as [t |]; [| discriminate].
  intros H.
  assert (Hk : k <> []).
  { intros ->. cbn in H. discriminate. }
  rewrite lookup_node_ne in H by assumption.
  destruct (t !! k) as [[c |] |]; try discriminate;
    injection H as <- <-; cbn; eauto 6.
Qed.

Lemma mem_copy_tree k data (w w1 : Mem.world) n :
  k <> [] ->
  Mem.tree w !! k = Some (Mem.RegularFile []) ->
  io_Copy {| Mem.hkey := k; Mem.hoff := 0; Mem.happend := false |} data w = (w1, Ok n) ->
  n = Z.of_nat (length (rbytes data)) /\
  Mem.root w1 = Mem.root w /\
  Mem.tree w1 = <[k := Mem.RegularFile (rbytes data)]> (Mem.tree w).
Proof.
  intros Hk Hl H.
  unfold io_Copy in H. apply bind_Ok_inv in H as (m & w2 & Hw & H).
  destruct (rerr data); [discriminate |]. injection H as <- <-.
  destruct (rbytes data) as [| b bs] eqn:Hb.
  - injection Hw as <- <-. now rewrite insert_id.
  - cbn in Hw. unfold Mem.Write in Hw. cbn [Mem.hkey Mem.happend Mem.hoff] in Hw.
    rewrite lookup_node_ne, Hl in Hw by assumption.
    injection Hw as <- <-. cbn [Mem.set_tree Mem.root Mem.tree].
    unfold Mem.write_at. cbn [Z.to_nat take replicate length Nat.sub app Nat.add].
    rewrite drop_nil, app_nil_r. auto.
Qed.

Lemma mem_Remove_file path k c (w w1 : Mem.world) :
  Mem.resolve path = Ok k ->
  Mem.lookup_node (Mem.tree w) k = Some (Mem.RegularFile c) ->
  Mem.Remove path w = (w1, Ok tt) ->
  Mem.root w1 = Mem.root w /\ Mem.index w1 = Mem.index w /\
  Mem.log w1 = Mem.log w /\ Mem.tree w1 = delete k (Mem.tree w).
Proof.
  intros Hr Hl. pose proof (lookup_node_file_ne _ _ _ Hl) as Hk.
  rewrite lookup_node_ne in Hl by assumption.
  unfold Mem.Remove. rewrite Hr.
  destruct k as [| x k]; [done |]. rewrite Hl.
  now intros [= <-].
Qed.

Lemma mem_Stat_file_inv path k (w : Mem.world) f :
  Mem.resolve path = Ok k ->
  Mem.Stat path w = Ok f -> os.IsDir f = false ->
  exists c, Mem.lookup_node (Mem.tree w) k = Some (Mem.RegularFile c).
Proof.
  intros Hr. unfold Mem.Stat. rewrite Hr.
  destruct (Mem.lookup_node _ _) as [[c |] |]; [eauto | |];
    intros [= <-]; discriminate.
Qed.

Lemma MakeDir_Ok_inv {B : Backend} (d : GitDriver) path w w' :
  Driver.MakeDir d path w = (w', Ok tt) ->
  exists r tree w1 w2,
    PlainOpen (RootPath d) w = Ok r /\
    Repository_Worktree r w = Ok tree /\
    Filesystem_MkdirAll tree path os.ModePerm w = (w1, Ok tt) /\
    Driver.add path r w1 = (w2, Ok tt) /\
    Driver.commit r w2 = (w', Ok tt).
Proof.
  unfold Driver.MakeDir. intros H. run_inv.
  repeat match goal with u : unit |- _ => destruct u end.
  repeat eexists; eassumption.
Qed.

Lemma DeleteFile_Ok_inv {B : Backend} (d : GitDriver) path w w' :
  Driver.DeleteFile d path w = (w', Ok tt) ->
  exists r tree f w1 w2,
    PlainOpen (RootPath d) w = Ok r /\
    Repository_Worktree r w = Ok tree /\
    Filesystem_Lstat tree path w = Ok f /\ os.IsDir f = false /\
    Filesystem_Remove tree path w = (w1, Ok tt) /\
    Driver.add path r w1 = (w2, Ok tt) /\
    Driver.commit r w2 = (w', Ok tt).
Proof.
  unfold Driver.DeleteFile. intros H. run_inv.
  match goal with H : (if os.IsDir ?f then _ else _) _ = _ |- _ =>
    destruct (os.IsDir f) eqn:Hd; [discriminate |] end.
  run_inv.
  repeat match goal with u : unit |- _ => destruct u end.
  repeat eexists; eassumption.
Qed.

(** The work tree a successful upload leaves when it goes through the
    create branch: what was at the path is gone, the missing parents are
    made, and the file holds the bytes of the stream. *)
Lemma mem_PutFile_create (d : GitDriver) path k data appendData
    (w w' : Mem.world) n :
  Mem.resolve path = Ok k ->
  appendData = false \/ Mem.lookup_node (Mem.tree w) k = None ->
  Driver.PutFile d path data appendData w = (w', Ok n) ->
  k <> [] /\
  n = Z.of_nat (length (rbytes data)) /\
  Mem.PlainOpen (RootPath d) w' = Ok tt /\
  exists t, Mem.mkdirs (delete k (Mem.tree w)) [] (removelast k) = Ok t /\
            Mem.tree w' = <[k := Mem.RegularFile (rbytes data)]> t.
Proof.
  intros Hr Hcase H.
  apply (PutFile_Ok_inv (B := MemBackend)) in H as ([] & [] & Ho & _ & [H | H]).
  { destruct H as (f0 & f & moved & pos & w1 & w2 & -> & Hs & Hd & _).
    destruct Hcase as [[=] | Hl].
    cbn in Hs. unfold Mem.Stat in Hs. rewrite Hr, Hl in Hs. discriminate. }
  destruct H as (w0 & f & w1 & w2 & w3 & Hfirst & Hc & Hcopy & Hadd & Hcommit).
  assert (H0 : Mem.root w0 = Mem.root w /\ Mem.tree w0 = delete k (Mem.tree w)).
  { destruct Hfirst as [(e0 & Hs & _ & ->) | (f0 & _ & Hs & Hd & Hrm)].
    - split; [reflexivity |]. cbn in Hs. unfold Mem.Stat in Hs. rewrite Hr in Hs.
      destruct (Mem.lookup_node (Mem.tree w) k) as [n0 |] eqn:Hl; [discriminate |].
      rewrite lookup_node_ne in Hl by now apply (lookup_node_None_ne (Mem.tree w)).
      now rewrite delete_id.
    - cbn in Hs, Hrm.
      destruct (mem_Stat_file_inv _ _ _ _ Hr Hs Hd) as [c Hl].
      now apply (mem_Remove_file _ _ _ _ _ Hr Hl) in Hrm as (? & _ & _ & ?). }
  destruct H0 as [Hroot0 Htree0].
  cbn in Hc. apply (mem_Create_tree _ k) in Hc as (Hk & -> & Hroot1 & t & Hm & Htree1);
    [| exact Hr].
  apply mem_copy_tree in Hcopy as (-> & Hroot2 & Htree2);
    [| exact Hk | rewrite Htree1; apply lookup_insert_eq].
  apply mem_add in Hadd as (_ & _ & _ & _ & Hroot3 & Htree3 & _).
  apply mem_commit in Hcommit as (Hroot4 & Htree4 & _).
  split; [exact Hk |]. split; [reflexivity |]. split.
  { apply (mem_PlainOpen_root _ w _ tt); [congruence | exact Ho]. }
  exists t. split; [now rewrite <- Htree0 |].
  rewrite Htree4, Htree3, Htree2, Htree1. apply insert_insert_eq.
Qed.

Lemma mem_ChangeDir (d : GitDriver) path k n (w : Mem.world) :
  Mem.PlainOpen (RootPath d) w = Ok tt ->
  Mem.resolve path = Ok k ->
  Mem.lookup_node (Mem.tree w) k = Some n ->
  Driver.ChangeDir d path w
  = (w, match n with
        | Mem.Directory => Ok tt
        | Mem.RegularFile _ => Err (errors.New "Not a directory")
        end).
Proof.
  intros Ho Hr Hl. unfold Driver.ChangeDir, bind, query. cbn.
  unfold Mem.Stat. rewrite Ho, Hr, Hl. now destruct n.
Qed.

(** ** Uploads that replace *)

(** X9. On the reference backend: after a successful [PutFile] without
    [append], whatever was at the path before, the file holds the bytes
    of the stream and nothing else: the call returns their number,
    [GetFile] reports that size and the file reads as the stream, and
    [ChangeDir] to the path fails with [Not a directory]. *)
Theorem put_replaces (d : GitDriver) (w : Mem.world) (path : string)
    (k : list string) (data : Reader) (w' : Mem.world) (n : Z) :
  Mem.resolve path = Ok k ->
  Driver.PutFile d path data false w = (w', Ok n) ->
  n = Z.of_nat (length (rbytes data)) /\
  (exists f : Mem.handle,
     Driver.GetFile d path 0 w' = (w', Ok (Z.of_nat (length (rbytes data)), f)) /\
     Mem.ReadAll f w' = Ok (rbytes data)) /\
  Driver.ChangeDir d path w' = (w', Err (errors.New "Not a directory")).
Proof.
  intros Hr H.
  apply (mem_PutFile_create d path k) in H as (Hk & -> & Ho & t & _ & Htree);
    [| exact Hr | now left].
  assert (Hl : Mem.lookup_node (Mem.tree w') k = Some (Mem.RegularFile (rbytes data))).
  { rewrite lookup_node_ne, Htree by assumption. apply lookup_insert_eq. }
  split; [reflexivity |]. split.
  - eexists. apply (mem_GetFile d path k _ w' Ho Hr Hl).
  - apply (mem_ChangeDir d path k _ w' Ho Hr Hl).
Qed.

Lemma put_replaces_witness :
  1 = Z.of_nat (length (rbytes (Mem.reader "x"))) /\
  (exists f : Mem.handle,
     Driver.GetFile Mem.driver "/a/f.txt" 0
       (after (Driver.PutFile Mem.driver "/a/f.txt" (Mem.reader "x") false) sample_file)
     = (after (Driver.PutFile Mem.driver "/a/f.txt" (Mem.reader "x") false) sample_file,
        Ok (Z.of_nat (length (rbytes (Mem.reader "x"))), f)) /\
     Mem.ReadAll f
       (after (Driver.PutFile Mem.driver "/a/f.txt" (Mem.reader "x") false) sample_file)
     = Ok (rbytes (Mem.reader "x"))) /\
  Driver.ChangeDir Mem.driver "/a/f.txt"
    (after (Driver.PutFile Mem.driver "/a/f.txt" (Mem.reader "x") false) sample_file)
  = (after (Driver.PutFile Mem.driver "/a/f.txt" (Mem.reader "x") false) sample_file,
     Err (errors.New "Not a directory")).
Proof.
  refine (put_replaces Mem.driver sample_file "/a/f.txt" ["a"; "f.txt"]
            (Mem.reader "x") _ 1 _ _);
    vm_compute; reflexivity.
Defined.

(** ** Making directories *)

(** X10. On the reference backend: after a successful [MakeDir] the path and
    every ancestor of it is a directory, every entry that existed is
    still there, and [ChangeDir] to the path succeeds. *)
Theorem MakeDir_then_ChangeDir (d : GitDriver) (w : Mem.world) (path : string)
    (k : list string) (w' : Mem.world) :
  Mem.resolve path = Ok k ->
  Driver.MakeDir d path w = (w', Ok tt) ->
  (forall i, Mem.lookup_node (Mem.tree w') (take i k) = Some Mem.Directory) /\
  (forall k' n, Mem.tree w !! k' = Some n -> Mem.tree w' !! k' = Some n) /\
  Driver.ChangeDir d path w' = (w', Ok tt).
Proof.
  intros Hr H.
  apply (MakeDir_Ok_inv (B := MemBackend)) in H
    as ([] & [] & w1 & w2 & Ho & _ & Hmk & Hadd & Hcommit).
  cbn in Hmk. unfold Mem.MkdirAll in Hmk. rewrite Hr in Hmk.
  destruct (Mem.mkdirs _ _ _) as [t |] eqn:Hm; [| discriminate].
  injection Hmk as <-.
  apply mem_add in Hadd as (_ & _ & _ & _ & Hroot2 & Htree2 & _).
  apply mem_commit in Hcommit as (Hroot3 & Htree3 & _).
  assert (Htree : Mem.tree w' = t) by (rewrite Htree3, Htree2; reflexivity).
  assert (Hopen : Mem.PlainOpen (RootPath d) w' = Ok tt).
  { apply (mem_PlainOpen_root _ w _ tt); [| exact Ho].
    rewrite Hroot3, Hroot2. reflexivity. }
  assert (Hdirs : forall i, Mem.lookup_node (Mem.tree w') (take i k) = Some Mem.Directory).
  { intros i. rewrite Htree.
    destruct (take i k) as [| x l] eqn:E; [reflexivity |].
    rewrite <- E. rewrite lookup_node_ne by (rewrite E; done).
    destruct (le_lt_dec i (length k)) as [Hle | Hgt].
    - apply (mkdirs_dirs _ _ [] _ i Hm). split; [| exact Hle].
      destruct i; [discriminate E | lia].
    - rewrite take_ge by lia.
      rewrite <- (take_ge k (length k)) by lia.
      apply (mkdirs_dirs _ _ [] _ (length k) Hm). split; [| lia].
      destruct k; [now rewrite take_nil in E | cbn; lia]. }
  split; [exact Hdirs |]. split.
  - intros k' n Hk'. rewrite Htree. exact (mkdirs_keeps _ _ _ _ _ _ Hm Hk').
  - specialize (Hdirs (length k)). rewrite take_ge in Hdirs by lia.
    apply (mem_ChangeDir d path k _ w' Hopen Hr Hdirs).
Qed.

Lemma MakeDir_then_ChangeDir_witness :
  (forall i, Mem.lookup_node
               (Mem.tree (after (Driver.MakeDir Mem.driver "/p/q/r") sample_file))
               (take i ["p"; "q"; "r"]) = Some Mem.Directory) /\
  (forall k' n, Mem.tree sample_file !! k' = Some n ->
     Mem.tree (after (Driver.MakeDir Mem.driver "/p/q/r") sample_file) !! k' = Some n) /\
  Driver.ChangeDir Mem.driver "/p/q/r"
    (after (Driver.MakeDir Mem.driver "/p/q/r") sample_file)
  = (after (Driver.MakeDir Mem.driver "/p/q/r") sample_file, Ok tt).
Proof.
  refine (MakeDir_then_ChangeDir Mem.driver sample_file "/p/q/r" ["p"; "q"; "r"] _ _ _);
    vm_compute; reflexivity.
Defined.

(** X11. On the reference backend: [MakeDir] on a directory that exists, with
    its ancestors, succeeds like any other: the work tree stays as it is,
    and one more commit is made all the same. *)
Theorem MakeDir_existing (d : GitDriver) (w : Mem.world) (path : string)
    (k : list string) (w' : Mem.world) :
  Mem.resolve path = Ok k ->
  (forall i, (0 < i <= length k)%nat -> Mem.tree w !! take i k = Some Mem.Directory) ->
  Driver.MakeDir d path w = (w', Ok tt) ->
  Mem.tree w' = Mem.tree w /\
  length (Mem.log w') = S (length (Mem.log w)).
Proof.
  intros Hr Hd H. split.
  - apply (MakeDir_Ok_inv (B := MemBackend)) in H
      as ([] & [] & w1 & w2 & Ho & _ & Hmk & Hadd & Hcommit).
    cbn in Hmk. unfold Mem.MkdirAll in Hmk. rewrite Hr in Hmk.
    rewrite (mkdirs_id k (Mem.tree w) [] Hd) in Hmk.
    injection Hmk as <-.
    apply mem_add in Hadd as (_ & _ & _ & _ & _ & Htree2 & _).
    apply mem_commit in Hcommit as (_ & Htree3 & _).
    rewrite Htree3, Htree2. reflexivity.
  - pose proof (one_commit_call (L := MemLaws) d (OpMakeDir path) w) as Hc.
    cbn [call] in Hc. rewrite H in Hc. exact Hc.
Qed.

Lemma MakeDir_existing_witness :
  Mem.tree (after (Driver.MakeDir Mem.driver "/a") sample_file) = Mem.tree sample_file /\
  length (Mem.log (after (Driver.MakeDir Mem.driver "/a") sample_file))
  = S (length (Mem.log sample_file)).
Proof.
  refine (MakeDir_existing Mem.driver sample_file "/a" ["a"] _ _ _ _).
  - reflexivity.
  - intros [| [| i]] Hi; cbn in Hi; try lia. vm_compute. reflexivity.
  - vm_compute. reflexivity.
Defined.

(** ** Deleting *)

Lemma mem_DeleteFile (d : GitDriver) (w : Mem.world) (path : string)
    (k : list string) (w' : Mem.world) :
  Mem.resolve path = Ok k ->
  Driver.DeleteFile d path w = (w', Ok tt) ->
  k <> [] /\
  Mem.PlainOpen (RootPath d) w' = Ok tt /\
  Mem.tree w' = delete k (Mem.tree w) /\
  (exists cr, Mem.log w' = cr :: Mem.log w /\ Mem.snapshot cr !! k = None).
Proof.
  intros Hr H.
  apply (DeleteFile_Ok_inv (B := MemBackend)) in H
    as ([] & [] & f & w1 & w2 & Ho & _ & Hs & Hd & Hrm & Hadd & Hcommit).
  cbn in Hs, Hrm.
  destruct (mem_Stat_file_inv _ _ _ _ Hr Hs Hd) as [c Hl].
  pose proof (lookup_node_file_ne _ _ _ Hl) as Hk.
  apply (mem_Remove_file _ _ _ _ _ Hr Hl) in Hrm as (Hroot1 & Hi1 & Hg1 & Htree1).
  apply mem_add in Hadd as (rel & k1 & Hrel & Hk1 & Hroot2 & Htree2 & Hg2 & Hi2).
  apply (resolve_RelRoot _ _ k) in Hrel; [| exact Hr].
  rewrite Hk1 in Hrel. injection Hrel as ->.
  apply mem_commit in Hcommit as (Hroot3 & Htree3 & Hi3 & cr & Hg3 & Hsnap).
  assert (Htree : Mem.tree w' = delete k (Mem.tree w)) by congruence.
  split; [exact Hk |]. split.
  { apply (mem_PlainOpen_root _ w _ tt); [congruence | exact Ho]. }
  split; [exact Htree |].
  exists cr. split; [congruence |].
  rewrite Hsnap, Hi2, Htree1.
  rewrite lookup_node_ne, lookup_delete_eq by assumption. apply lookup_delete_eq.
Qed.

(** X12. On the reference backend: a successful [DeleteFile] takes exactly
    the entry of the path out of the work tree; [Stat] of the path then
    fails with a not-exist error, and the new commit has no entry at the
    path. *)
Theorem DeleteFile_then_Stat (d : GitDriver) (w : Mem.world) (path : string)
    (k : list string) (w' : Mem.world) :
  Mem.resolve path = Ok k ->
  Driver.DeleteFile d path w = (w', Ok tt) ->
  Mem.tree w' = delete k (Mem.tree w) /\
  (exists e, Driver.Stat d path w' = (w', Err e) /\ os.IsNotExist e = true) /\
  (exists cr, Mem.log w' = cr :: Mem.log w /\ Mem.snapshot cr !! k = None).
Proof.
  intros Hr H.
  destruct (mem_DeleteFile d w path k w' Hr H) as (Hk & Ho & Htree & Hsnap).
  split; [exact Htree |]. split; [| exact Hsnap].
  exists Mem.not_exist. split; [| reflexivity].
  apply (mem_Stat_missing d path k); [exact Ho | exact Hr |].
  rewrite lookup_node_ne, Htree by assumption. apply lookup_delete_eq.
Qed.

Lemma DeleteFile_then_Stat_witness :
  Mem.tree (after (Driver.DeleteFile Mem.driver "/a/f.txt") sample_two)
  = delete ["a"; "f.txt"] (Mem.tree sample_two) /\
  (exists e, Driver.Stat Mem.driver "/a/f.txt"
               (after (Driver.DeleteFile Mem.driver "/a/f.txt") sample_two)
             = (after (Driver.DeleteFile Mem.driver "/a/f.txt") sample_two, Err e) /\
             os.IsNotExist e = true) /\
  (exists cr, Mem.log (after (Driver.DeleteFile Mem.driver "/a/f.txt") sample_two)
              = cr :: Mem.log sample_two /\
              Mem.snapshot cr !! ["a"; "f.txt"] = None).
Proof.
  refine (DeleteFile_then_Stat Mem.driver sample_two "/a/f.txt" ["a"; "f.txt"] _ _ _);
    vm_compute; reflexivity.
Defined.

(** X13. On the reference backend: putting a file at a free path whose
    parent directories exist and deleting it again gives the work tree
    back as it was, two commits later. *)
Theorem put_then_delete (d : GitDriver) (w : Mem.world) (path : string)
    (k : list string) (data : Reader) (appendData : bool) (w1 w2 : Mem.world) (n : Z) :
  Mem.resolve path = Ok k ->
  Mem.lookup_node (Mem.tree w) k = None ->
  (forall i, (0 < i < length k)%nat -> Mem.tree w !! take i k = Some Mem.Directory) ->
  Driver.PutFile d path data appendData w = (w1, Ok n) ->
  Driver.DeleteFile d path w1 = (w2, Ok tt) ->
  Mem.tree w2 = Mem.tree w /\
  length (Mem.log w2) = S (S (length (Mem.log w))).
Proof.
  intros Hr Hl Hd Hput Hdel.
  pose proof (lookup_node_None_ne _ _ Hl) as Hk.
  rewrite lookup_node_ne in Hl by assumption.
  split.
  - apply (mem_PutFile_create d path k) in Hput as (_ & _ & _ & t & Hm & Htree1);
      [| exact Hr | right; now rewrite lookup_node_ne].
    rewrite delete_id in Hm by exact Hl.
    rewrite mkdirs_id in Hm.
    2:{ intros i Hi. rewrite removelast_take in Hi |- *.
        rewrite length_take in Hi. rewrite take_take.
        replace (i `min` (length k - 1))%nat with i by lia.
        apply Hd. lia. }
    injection Hm as <-.
    destruct (mem_DeleteFile d w1 path k w2 Hr Hdel) as (_ & _ & Htree2 & _).
    rewrite Htree2, Htree1, delete_insert_eq. now apply delete_id.
  - pose proof (one_commit_call (L := MemLaws) d (OpPutFile path data appendData) w) as H1.
    pose proof (one_commit_call (L := MemLaws) d (OpDeleteFile path) w1) as H2.
    cbn [call] in H1, H2. unfold forget in H1.
    rewrite (bind_Ok_step _ _ _ _ _ Hput) in H1. rewrite Hdel in H2.
    cbn in H1, H2. congruence.
Qed.

Lemma put_then_delete_witness :
  Mem.tree (after (Driver.DeleteFile Mem.driver "/a/g") sample_two) = Mem.tree sample_file /\
  length (Mem.log (after (Driver.DeleteFile Mem.driver "/a/g") sample_two))
  = S (S (length (Mem.log sample_file))).
Proof.
  refine (put_then_delete Mem.driver sample_file "/a/g" ["a"; "g"] (Mem.reader "x") true
            sample_two _ 1 _ _ _ _ _).
  - reflexivity.
  - reflexivity.
  - intros [| [| i]] Hi; cbn in Hi; try lia. vm_compute. reflexivity.
  - vm_compute. reflexivity.
  - vm_compute. reflexivity.
Defined.

(** X14. On the reference backend: [DeleteDir] never removes a directory
    that has an entry below it: the call fails and the state is left as
    it was; when the repository opens and the path names a directory, the
    error is the backend's refusal to remove it. *)
Theorem DeleteDir_nonempty (d : GitDriver) (w : Mem.world) (path : string)
    (k : list string) (x : string) (below : list string) (n : Mem.node) :
  Mem.resolve path = Ok k ->
  Mem.tree w !! (k ++ x :: below) = Some n ->
  (exists e, Driver.DeleteDir d path w = (w, Err e)) /\
  (Mem.PlainOpen (RootPath d) w = Ok tt ->
   Mem.lookup_node (Mem.tree w) k = Some Mem.Directory ->
   k <> [] ->
   Driver.DeleteDir d path w = (w, Err (errors.New "directory not empty"))).
Proof.
  intros Hr Hin.
  assert (Hex : existsb (fun kn : list string * Mem.node => Mem.below k kn.1)
                  (map_to_list (Mem.tree w)) = true).
  { apply existsb_exists. exists (k ++ x :: below, n). split.
    - apply list_elem_of_In, elem_of_map_to_list. exact Hin.
    - unfold Mem.below. cbn. rewrite take_app_length.
      rewrite !bool_decide_eq_true_2; [reflexivity | reflexivity |].
      intros E. apply (f_equal length) in E. rewrite length_app in E. cbn in E. lia. }
  assert (Hrm : k <> [] -> Mem.tree w !! k = Some Mem.Directory ->
                Mem.Remove path w = (w, Err (errors.New "directory not empty"))).
  { intros Hk Hl. unfold Mem.Remove. rewrite Hr.
    destruct k as [| y k]; [done |]. now rewrite Hl, Hex. }
  split.
  - unfold Driver.DeleteDir, bind, query. cbn.
    destruct (Mem.PlainOpen (RootPath d) w); [| eauto].
    unfold Mem.Stat. rewrite Hr.
    destruct (Mem.lookup_node (Mem.tree w) k) as [[c |] |] eqn:Hl; cbn; [eauto | | eauto].
    destruct k as [| y k].
    + unfold Mem.Remove. rewrite Hr. eauto.
    + rewrite Hrm; [eauto | done | exact Hl].
  - intros Ho Hl Hk. unfold Driver.DeleteDir, bind, query. cbn.
    unfold Mem.Stat. rewrite Ho, Hr, Hl. cbn.
    rewrite Hrm; [reflexivity | exact Hk |]. now rewrite <- lookup_node_ne.
Qed.

Lemma DeleteDir_nonempty_witness :
  Driver.DeleteDir Mem.driver "/a" sample_file
  = (sample_file, Err (errors.New "directory not empty")).
Proof.
  refine (proj2 (DeleteDir_nonempty Mem.driver sample_file "/a" ["a"] "f.txt" []
                   (Mem.RegularFile (Mem.bytes "hello")) _ _) _ _ _);
    try (vm_compute; reflexivity).
  discriminate.
Defined.

(** ** Metadata, once more *)

(** X15. [ChangeDir] and [Stat] agree on what a directory is: where [Stat]
    succeeds, [ChangeDir] succeeds exactly if the backend's file info in
    the metadata says directory, and fails with [Not a directory]
    otherwise; it leaves the state alone. *)
Theorem ChangeDir_agrees_with_Stat {B : Backend} (d : GitDriver) (path : string)
    (w w' : World) (fi : FileInfo) :
  Driver.Stat d path w = (w', Ok fi) ->
  Driver.ChangeDir d path w
  = (w, if os.IsDir (info fi) then Ok tt else Err (errors.New "Not a directory")).
Proof.
  intros H.
  apply Stat_inv in H as (r & t & f & m & ow & gr & Ho & Ht & Hs & _ & _ & _ & ->).
  unfold Driver.ChangeDir, bind, query. rewrite Ho, Ht, Hs. cbn.
  now destruct (os.IsDir f).
Qed.

Lemma ChangeDir_agrees_with_Stat_witness :
  Driver.ChangeDir Mem.driver "/a/f.txt" sample_file
  = (sample_file, Err (errors.New "Not a directory")).
Proof.
  refine (ChangeDir_agrees_with_Stat Mem.driver "/a/f.txt" sample_file sample_file
            (Build_FileInfo
               (Mem.file_info ["a"; "f.txt"] (Mem.RegularFile (Mem.bytes "hello")))
               os.ModePerm "user" "group") _).
  vm_compute. reflexivity.
Defined.

(** X16. [Stat] and [ListDir] take the mode of an entry from different
    places: in the metadata of [Stat] it is the answer of the permission
    collaborator for the path, in an entry of [ListDir] it is the mode
    the backend's stat of the child reports; in both the directory bit is
    or-ed in for a directory. *)
Theorem mode_sources {B : Backend} (d : GitDriver) (w : World) :
  (forall path w' fi,
     Driver.Stat d path w = (w', Ok fi) ->
     exists m, server.GetMode (Perm d) path = Ok m /\
               mode fi = if os.IsDir (info fi) then Z.lor m os.ModeDir else m) /\
  (forall C (callback : Callback C) path c w' c' calls res,
     Driver.ListDir d path (recording callback) (w, (c, [])) = ((w', (c', calls)), res) ->
     forall fi a, (fi, a) ∈ calls ->
     mode fi = if os.IsDir (info fi) then Z.lor (os.Mode (info fi)) os.ModeDir
               else os.Mode (info fi)).
Proof.
  split.
  - intros path w' fi H.
    apply Stat_inv in H as (r & t & f & m & ow & gr & _ & _ & _ & Hm & _ & _ & ->).
    exists m. auto.
  - intros C callback path c w' c' calls res H fi a Hin.
    destruct (ListDir_calls_listed _ _ _ _ _ _ _ _ _ H fi a Hin)
      as (inf & ow & gr & _ & _ & ->).
    reflexivity.
Qed.

Lemma mode_sources_witness :
  (exists m, server.GetMode (Perm echo_driver) "/a/f.txt" = Ok m /\
             mode sample_stat_entry
             = if os.IsDir (info sample_stat_entry) then Z.lor m os.ModeDir else m) /\
  mode sample_list_entry
  = (if os.IsDir (info sample_list_entry)
     then Z.lor (os.Mode (info sample_list_entry)) os.ModeDir
     else os.Mode (info sample_list_entry)).
Proof.
  destruct (mode_sources (B := MemBackend) echo_driver sample_two) as [Hs Hl].
  split.
  - refine (Hs "/a/f.txt" sample_two sample_stat_entry _).
    vm_compute. reflexivity.
  - refine (Hl unit accept_all "/a" tt sample_two tt
              (sample_listing echo_driver "/a" accept_all).1.2.2 (Ok tt) _
              sample_list_entry (Ok tt) _).
    + vm_compute. reflexivity.
    + vm_compute. apply list_elem_of_further, list_elem_of_here.
Defined.

(** The same file has mode 0 for [Stat] and mode 0644 in the listing. *)
Example mode_sources_differ :
  mode sample_stat_entry = 0 /\ mode sample_list_entry = 420.
Proof. split; reflexivity. Qed.

(** A driver of the factory the command line sets up. *)
Example NewDriver_cli :
  NewDriver {| FactoryRootPath := "/srv/repo"; FactoryPerm := Mem.SimplePerm |}
  = Ok Mem.driver.
Proof. reflexivity. Qed.

(** ** What a commit says *)

(** X17. On the reference backend: the commit a successful mutating call
    makes is the same for every operation but for its time and its
    entries: the message [example go-git commit], the author John Doe,
    the time of the clock, and the entries staged; it sits on top of
    as many commits as there were. *)
Theorem commit_stamp (d : GitDriver) (op : mutation) (w w' : Mem.world) :
  call d op w = (w', Ok tt) ->
  exists older,
    Mem.log w' = stamp (Mem.clock w') (Mem.index w') :: older /\
    length older = length (Mem.log w).
Proof.
  intros H.
  pose proof (one_commit_call (L := MemLaws) d op w) as Hc. rewrite H in Hc.
  destruct (ends_call (B := MemBackend) d op w w' tt H) as (r & w0 & Hcommit).
  unfold Driver.commit, bind, query, ret in Hcommit. cbn in Hcommit.
  injection Hcommit as <-.
  eexists. split; [reflexivity |]. cbn in Hc. now injection Hc.
Qed.

Lemma commit_stamp_witness :
  exists older,
    Mem.log sample_renamed
    = stamp (Mem.clock sample_renamed) (Mem.index sample_renamed) :: older /\
    length older = length (Mem.log sample_file).
Proof.
  refine (commit_stamp Mem.driver (OpRename "/a/f.txt" "/b/g") sample_file
            sample_renamed _).
  vm_compute. reflexivity.
Defined.
